(** * Alarm merge: transcribe_excel_2_yaml.py and transcribe_excel_2_yaml_filt.py

    A shallow embedding of the two scripts of the repository.  Both define a
    class [AtualizadorDeAlarmes] whose method [executar_atualizacao] loads the
    alarms already stored in a YAML file, loads new alarms from an Excel
    sheet, moves every new alarm whose identifier is taken to the next free
    identifier above it, and saves the concatenation.

    - [transcribe_excel_2_yaml.py] reads the sheet by column position and
      sorts by [alarm_id] when saving: [Module Posicional].
    - [transcribe_excel_2_yaml_filt.py] reads the sheet by column title and
      saves in append order: [Module Titulos].

    What the libraries do ([pandas.read_excel], [yaml.safe_load],
    [yaml.dump], [print]) is the boundary of the model: the state holds what
    [read_excel] and [safe_load] return, the console and the list of payloads
    handed to [yaml.dump]. *)

From Stdlib Require Import ZArith NArith String Ascii DecimalString Sorted.
From stdpp Require Import base list gmap sets fin_sets.

#[local] Open Scope Z_scope.

(** ** Python text *)

(** A Python [str] is a sequence of code points. *)
Definition pystr : Type := list N.

(** An ASCII literal, code point by code point. *)
Definition lit (s : string) : pystr :=
  (λ a, N_of_ascii a) <$> list_ascii_of_string s.

(** [Py_UNICODE_ISSPACE]: the code points [str.strip()] removes. *)
Definition isspace (c : N) : bool :=
  ((9 <=? c) && (c <=? 13) || (28 <=? c) && (c <=? 32)
   || (c =? 133) || (c =? 160) || (c =? 5760)
   || (8192 <=? c) && (c <=? 8202)
   || (c =? 8232) || (c =? 8233) || (c =? 8239) || (c =? 8287)
   || (c =? 12288))%N.

Fixpoint lstrip (s : pystr) : pystr :=
  match s with
  | c :: s' => if isspace c then lstrip s' else s
  | [] => []
  end.

Definition rstrip (s : pystr) : pystr := reverse (lstrip (reverse s)).

(** [str.strip()] with no argument. *)
Definition strip (s : pystr) : pystr := rstrip (lstrip s).

(** Lower-casing of one Latin-1 code point: [A-Z] and [U+00C0-U+00DE]
    (but the multiplication sign [U+00D7]) move up by 32. *)
Definition lower_latin1 (c : N) : N :=
  (if (65 <=? c) && (c <=? 90) then c + 32
   else if (192 <=? c) && (c <=? 222) && negb (c =? 215) then c + 32
   else c)%N.

(** The parts of the Python runtime that are tables of the interpreter, not
    code of the repository: [int()] applied to a [str] ([None] when it raises
    [ValueError]) and [str.lower()] on text with a code point beyond Latin-1
    (the full Unicode case mapping, which is context sensitive). *)
Class PyRuntime := {
  int_of_str : pystr → option Z;
  lower_unicode : pystr → pystr
}.

(** [str.lower()]. *)
Definition lower {rt : PyRuntime} (s : pystr) : pystr :=
  if forallb (λ c, c <? 256)%N s then lower_latin1 <$> s else lower_unicode s.

(** ** Scalars *)

(** The values a cell of the sheet or a field of a record holds: text, an
    integer, a boolean, or the float NaN pandas puts in a blank cell.  Other
    floats are not modelled. *)
Inductive scalar :=
| SStr (s : pystr)
| SInt (z : Z)
| SBool (b : bool)
| SNaN.

#[global] Instance scalar_eq_dec : EqDecision scalar.
Proof. solve_decision. Defined.

(** [str(v)]. *)
Definition py_str (v : scalar) : pystr :=
  match v with
  | SStr s => s
  | SInt z => lit (NilZero.string_of_int (Z.to_int z))
  | SBool true => lit "True"
  | SBool false => lit "False"
  | SNaN => lit "nan"
  end.

(** [int(v)]; [None] stands for the [ValueError] it raises. *)
Definition py_int {rt : PyRuntime} (v : scalar) : option Z :=
  match v with
  | SStr s => int_of_str s
  | SInt z => Some z
  | SBool b => Some (if b then 1 else 0)
  | SNaN => None
  end.

(** The two tokens of [_transformar_valor_booleano]: ['sim'] and ['não']. *)
Definition tok_sim : pystr := lit "sim".
Definition tok_nao : pystr := lit "n" ++ [227%N] ++ lit "o".

(** [_transformar_valor_booleano] (the same static method in both files). *)
Definition _transformar_valor_booleano {rt : PyRuntime} (valor : scalar) : scalar :=
  let valor_str := lower (strip (py_str valor)) in
  if decide (valor_str = tok_sim) then SBool true
  else if decide (valor_str = tok_nao) then SBool false
  else valor.

(** ** Alarm records *)

(** The nested dictionary under the key ['text']. *)
Record grupo_text := GrupoText {
  text_text : pystr;
  text1 : scalar;
  text2 : pystr
}.

(** The nested dictionary under the key ['config']. *)
Record grupo_config := GrupoConfig {
  config_config : pystr;
  subconfig1 : pystr;
  subconfig2 : pystr
}.

(** One alarm dictionary, keys in the order the code builds them. *)
Record alarm := Alarm {
  alarm_id : Z;
  name : pystr;
  text : grupo_text;
  config : grupo_config
}.

(** [alarme['alarm_id'] = v]. *)
Definition set_alarm_id (a : alarm) (v : Z) : alarm :=
  {| alarm_id := v; name := name a; text := text a; config := config a |}.

(** The identifiers of a list of alarms, in order. *)
Definition ids (l : list alarm) : list Z := alarm_id <$> l.

(** ** Console *)

(** The exceptions the scripts tell apart in their [except] clauses. *)
Inductive excecao :=
| FileNotFoundError
| ValueError
| KeyError
| OutraExcecao.

(** One constructor per [print] of the two scripts, with the values its
    f-string shows. *)
Inductive mensagem :=
| MsgYamlNaoEncontrado
| MsgYamlEncontrados (n : nat)
| MsgYamlNaoLista
| MsgYamlErro
| MsgExcelEncontrados (n : nat)
| MsgExcelNaoEncontrado
| MsgExcelErroValor
| MsgExcelErro (e : excecao)
| MsgColunasFaltantes (colunas_faltantes : list string)
| MsgNenhumNovo
| MsgConflito (id_alvo id_novo_provisorio : Z)
| MsgSalvo (n : nat).

(** ** Conflict resolution *)

(** The inner loop
    [while id_novo_provisorio in ids_em_uso: id_novo_provisorio += 1],
    with a bound on the number of iterations; [None] when the bound is
    reached before the loop exits. *)
Fixpoint while_em_uso (fuel : nat) (ids_em_uso : gset Z)
    (id_novo_provisorio : Z) : option Z :=
  match fuel with
  | O => None
  | S fuel' =>
      if decide (id_novo_provisorio ∈ ids_em_uso)
      then while_em_uso fuel' ids_em_uso (id_novo_provisorio + 1)
      else Some id_novo_provisorio
  end.

(** The value of [id_novo_provisorio] when the loop exits.  One more
    iteration than the set has elements always suffices
    ([while_em_uso_total] below), so the default is never taken. *)
Definition proximo_livre (ids_em_uso : gset Z) (id_alvo : Z) : Z :=
  default id_alvo (while_em_uso (S (size ids_em_uso)) ids_em_uso id_alvo).

(** The body of [for alarme_novo in novos_alarmes], as a function of
    [ids_em_uso]: the alarm appended to [alarmes_processados] and what is
    printed. *)
Definition resolver (ids_em_uso : gset Z) (alarme_novo : alarm)
    : alarm * list mensagem :=
  let id_alvo := alarm_id alarme_novo in
  if decide (id_alvo ∈ ids_em_uso) then
    let id_novo_provisorio := proximo_livre ids_em_uso id_alvo in
    (set_alarm_id alarme_novo id_novo_provisorio,
     [MsgConflito id_alvo id_novo_provisorio])
  else (alarme_novo, []).

(** The loop over [novos_alarmes]: [alarmes_processados] and the console
    output, [ids_em_uso] growing by each processed identifier. *)
Fixpoint processar (ids_em_uso : gset Z) (novos_alarmes : list alarm)
    : list alarm * list mensagem :=
  match novos_alarmes with
  | [] => ([], [])
  | alarme_novo :: resto =>
      let '(alarme, msgs) := resolver ids_em_uso alarme_novo in
      let '(alarmes_processados, msgs') :=
        processar (ids_em_uso ∪ {[alarm_id alarme]}) resto in
      (alarme :: alarmes_processados, msgs ++ msgs')
  end.

(** The identifiers of the set at or above [k]: what the inner loop has
    still to pass. *)
Definition acima (ids_em_uso : gset Z) (k : Z) : gset Z :=
  filter (λ x, k ≤ x) ids_em_uso.

(** Two alarms that agree on everything but, possibly, [alarm_id]. *)
Definition mesmo_resto (a b : alarm) : Prop :=
  name b = name a ∧ text b = text a ∧ config b = config a.

(** [{alarm['alarm_id'] for alarm in alarmes_existentes}]. *)
Definition ids_de (alarmes_existentes : list alarm) : gset Z :=
  list_to_set (ids alarmes_existentes).

(** ** Sorting *)

(** [sorted(data, key=...)] is a stable sort.  Here every element, from the
    last to the first, is inserted before the first element whose key is not
    smaller than its own, so equal keys stay in their order. *)
Fixpoint inserir {A} (key : A → Z) (x : A) (l : list A) : list A :=
  match l with
  | [] => [x]
  | y :: l' => if key x <=? key y then x :: l else y :: inserir key x l'
  end.

Definition sorted {A} (key : A → Z) (data : list A) : list A :=
  foldr (inserir key) [] data.

(** ** Exceptions *)

(** A computation that returns a value or raises. *)
Inductive exc (A : Type) :=
| Retorna (a : A)
| Levanta (e : excecao).
Arguments Retorna {A} a.
Arguments Levanta {A} e.

#[global] Instance exc_ret : MRet exc := λ A a, Retorna a.
#[global] Instance exc_bind : MBind exc := λ A B f m,
  match m with
  | Retorna a => f a
  | Levanta e => Levanta e
  end.

(** [for x in xs: ys.append(f(x))] with a body that may raise: the first
    exception leaves the loop. *)
Fixpoint para_cada {A B} (f : A → exc B) (xs : list A) : exc (list B) :=
  match xs with
  | [] => mret []
  | x :: xs' =>
      y ← f x;
      ys ← para_cada f xs';
      mret (y :: ys)
  end.

(** [int(v)] as an expression that raises [ValueError]. *)
Definition int_exc {rt : PyRuntime} (v : scalar) : exc Z :=
  match py_int v with
  | Some z => Retorna z
  | None => Levanta ValueError
  end.

(** ** The state the scripts run in *)

(** What [yaml.safe_load] returns for the destination file.  The elements of
    a list are alarm records (the data model of the persisted file); a
    mapping is known by its number of entries only. *)
Inductive yaml_doc :=
| YNull
| YList (alarms : list alarm)
| YEscalar (v : scalar)
| YMapa (n : nat).

(** Python truth value of a loaded document, for [safe_load(f) or []]. *)
Definition truthy (d : yaml_doc) : bool :=
  match d with
  | YNull => false
  | YList alarms => negb (bool_decide (alarms = []))
  | YEscalar (SStr s) => negb (bool_decide (s = []))
  | YEscalar (SInt z) => negb (z =? 0)
  | YEscalar (SBool b) => b
  | YEscalar SNaN => true
  | YMapa n => negb (n =? 0)%nat
  end.

(** The destination file: missing, not parseable ([yaml.YAMLError]), or
    holding a document. *)
Inductive yaml_file :=
| Ausente
| Ilegivel
| Conteudo (d : yaml_doc).

(** The state: the destination file, what [pd.read_excel] gives for the
    source (a frame of type [F] or an exception), the console, and the
    payloads handed to [yaml.dump] so far. *)
Record mundo (F : Type) := Mundo {
  arq_yaml : yaml_file;
  arq_excel : exc F;
  console : list mensagem;
  gravacoes : list (list alarm)
}.
Arguments Mundo {F} _ _ _ _.
Arguments arq_yaml {F} _.
Arguments arq_excel {F} _.
Arguments console {F} _.
Arguments gravacoes {F} _.

(** [print(...)]. *)
Definition print {F} (m : mensagem) (w : mundo F) : mundo F :=
  Mundo (arq_yaml w) (arq_excel w) (console w ++ [m]) (gravacoes w).

(** Several [print]s in a row. *)
Definition prints {F} (ms : list mensagem) (w : mundo F) : mundo F :=
  Mundo (arq_yaml w) (arq_excel w) (console w ++ ms) (gravacoes w).

(** [with open(yaml_path, 'w') as f: yaml.dump(data, f, ...)]: the payload
    handed to [yaml.dump] is recorded, and the file is taken to hold it.
    That a later [safe_load] gives this very list back holds for records of
    text, integers and booleans, not for every value the positional sheet
    can put in [text1]; the properties of a single run do not depend on it,
    and a property of two runs takes it as a hypothesis. *)
Definition dump {F} (data : list alarm) (w : mundo F) : mundo F :=
  Mundo (Conteudo (YList data)) (arq_excel w) (console w)
        (gravacoes w ++ [data]).

(** The list stored in the destination file, if it holds one. *)
Definition persistido {F} (w : mundo F) : option (list alarm) :=
  match arq_yaml w with
  | Conteudo (YList alarms) => Some alarms
  | _ => None
  end.

(** ** transcribe_excel_2_yaml.py *)

Module Posicional.
Section Script.
Context {rt : PyRuntime}.

(** [pd.read_excel(path, header=None)]: rows of cells, columns labelled
    [0], [1], ... *)
Definition frame : Type := list (list scalar).

(** [row[i]]. *)
Definition celula (row : list scalar) (i : nat) : exc scalar :=
  match row !! i with
  | Some v => Retorna v
  | None => Levanta KeyError
  end.

Definition _carregar_alarmes_yaml (w : mundo frame)
    : mundo frame * list alarm :=
  match arq_yaml w with
  | Ausente => (print MsgYamlNaoEncontrado w, [])
  | Ilegivel => (print MsgYamlErro w, [])
  | Conteudo alarms =>
      match alarms with
      | YList l => (print (MsgYamlEncontrados (length l)) w, l)
      | _ => (print MsgYamlNaoLista w, [])
      end
  end.

(** The body of [for index, row in df.iterrows()]: the expressions in the
    order Python evaluates them. *)
Definition alarm_data (row : list scalar) : exc alarm :=
  r3 ← celula row 3;
  let valor_text1_processado := _transformar_valor_booleano r3 in
  r0 ← celula row 0;
  id ← int_exc r0;
  r1 ← celula row 1;
  r2 ← celula row 2;
  r4 ← celula row 4;
  r5 ← celula row 5;
  r6 ← celula row 6;
  r7 ← celula row 7;
  mret {| alarm_id := id;
          name := py_str r1;
          text := {| text_text := py_str r2;
                     text1 := valor_text1_processado;
                     text2 := py_str r4 |};
          config := {| config_config := py_str r5;
                       subconfig1 := py_str r6;
                       subconfig2 := py_str r7 |} |}.

(** The loop filling [novos_alarmes]. *)
Definition iterrows (rows : list (list scalar)) : exc (list alarm) :=
  para_cada alarm_data rows.

(** A row whose identifier cell [int()] refuses. *)
Definition id_malformado (row : list scalar) : bool :=
  match row !! 0%nat with
  | Some v => match py_int v with Some _ => false | None => true end
  | None => false
  end.

Definition _carregar_alarmes_excel (w : mundo frame)
    : mundo frame * list alarm :=
  match arq_excel w ≫= iterrows with
  | Retorna novos_alarmes =>
      (print (MsgExcelEncontrados (length novos_alarmes)) w, novos_alarmes)
  | Levanta FileNotFoundError => (print MsgExcelNaoEncontrado w, [])
  | Levanta e => (print (MsgExcelErro e) w, [])
  end.

Definition _salvar_yaml (data : list alarm) (w : mundo frame)
    : mundo frame :=
  let data_sorted := sorted alarm_id data in
  print (MsgSalvo (length data_sorted)) (dump data_sorted w).

Definition executar_atualizacao (w : mundo frame) : mundo frame :=
  let '(w, alarmes_existentes) := _carregar_alarmes_yaml w in
  let '(w, novos_alarmes) := _carregar_alarmes_excel w in
  match novos_alarmes with
  | [] => print MsgNenhumNovo w
  | _ :: _ =>
      let ids_em_uso := ids_de alarmes_existentes in
      let '(alarmes_processados, msgs) := processar ids_em_uso novos_alarmes in
      let w := prints msgs w in
      let lista_final := alarmes_existentes ++ alarmes_processados in
      _salvar_yaml lista_final w
  end.

(** The two lists [executar_atualizacao] starts from, and the list it hands
    to [yaml.dump] when there is something new. *)
Definition existentes (w : mundo frame) : list alarm :=
  (_carregar_alarmes_yaml w).2.

Definition novos (w : mundo frame) : list alarm :=
  (_carregar_alarmes_excel w).2.

Definition lista_gravada (w : mundo frame) : list alarm :=
  sorted alarm_id
    (existentes w ++ (processar (ids_de (existentes w)) (novos w)).1).

End Script.
End Posicional.

(** ** transcribe_excel_2_yaml_filt.py *)

Module Titulos.
Section Script.
Context {rt : PyRuntime}.

(** [pd.read_excel(path, header=0, dtype=str)]: the titles of the first row
    and the rows below it; a cell is text, or blank ([None], pandas' NaN). *)
Record frame := Frame {
  columns : list string;
  rows : list (list (option pystr))
}.

(** [self.mapa_de_colunas]: a dictionary with eight fixed keys, here one
    field per key, in insertion order. *)
Record mapa := Mapa {
  col_alarm_id : string;
  col_name : string;
  col_text : string;
  col_text1 : string;
  col_text2 : string;
  col_config : string;
  col_subconfig1 : string;
  col_subconfig2 : string
}.

Definition mapa_de_colunas : mapa :=
  {| col_alarm_id := "ID do Alarme";
     col_name := "Nome do Alarme";
     col_text := "Texto Principal";
     col_text1 := "Habilitado";
     col_text2 := "Ação Recomendada";
     col_config := "Nível de Configuração";
     col_subconfig1 := "Sub-Config 1";
     col_subconfig2 := "Sub-Config 2" |}.

(** [mapa.values()]. *)
Definition values (m : mapa) : list string :=
  [col_alarm_id m; col_name m; col_text m; col_text1 m; col_text2 m;
   col_config m; col_subconfig1 m; col_subconfig2 m].

(** [.fillna('')] on one row. *)
Definition fillna (row : list (option pystr)) : list pystr :=
  default [] <$> row.

(** [row[col]] for a row of a frame with the given titles. *)
Definition campo (cols : list string) (row : list pystr) (col : string)
    : exc pystr :=
  match list_find (λ c, c = col) cols with
  | Some (i, _) =>
      match row !! i with
      | Some v => Retorna v
      | None => Levanta KeyError
      end
  | None => Levanta KeyError
  end.

Definition _carregar_alarmes_yaml (w : mundo frame)
    : mundo frame * list alarm :=
  match arq_yaml w with
  | Ausente => (print MsgYamlNaoEncontrado w, [])
  | Ilegivel => (print MsgYamlErro w, [])
  | Conteudo d =>
      let alarms := if truthy d then d else YList [] in
      match alarms with
      | YList l => (print (MsgYamlEncontrados (length l)) w, l)
      | _ => (print MsgYamlNaoLista w, [])
      end
  end.

(** [colunas_faltantes]. *)
Definition colunas_faltantes (cols : list string) : list string :=
  filter (λ col, col ∉ cols) (values mapa_de_colunas).

(** The body of [for index, row in df.iterrows()]. *)
Definition alarm_data (cols : list string) (row : list pystr) : exc alarm :=
  let mapa := mapa_de_colunas in
  r_id ← campo cols row (col_alarm_id mapa);
  id ← int_exc (SStr r_id);
  r_name ← campo cols row (col_name mapa);
  r_text ← campo cols row (col_text mapa);
  r_text1 ← campo cols row (col_text1 mapa);
  r_text2 ← campo cols row (col_text2 mapa);
  r_config ← campo cols row (col_config mapa);
  r_subconfig1 ← campo cols row (col_subconfig1 mapa);
  r_subconfig2 ← campo cols row (col_subconfig2 mapa);
  mret {| alarm_id := id;
          name := r_name;
          text := {| text_text := r_text;
                     text1 := _transformar_valor_booleano (SStr r_text1);
                     text2 := r_text2 |};
          config := {| config_config := r_config;
                       subconfig1 := r_subconfig1;
                       subconfig2 := r_subconfig2 |} |}.

(** The loop filling [novos_alarmes]. *)
Definition iterrows (cols : list string) (rows : list (list pystr))
    : exc (list alarm) :=
  para_cada (alarm_data cols) rows.

(** A row whose identifier cell [int()] refuses. *)
Definition id_malformado (cols : list string) (row : list (option pystr))
    : bool :=
  match campo cols (fillna row) (col_alarm_id mapa_de_colunas) with
  | Retorna s => match int_of_str s with Some _ => false | None => true end
  | Levanta _ => false
  end.

(** What the [try] block does with the frame: [Retorna []] after printing
    the missing titles, else the loop.  The first component is what the
    block prints before it returns. *)
Definition ingerir (df : frame) : list mensagem * exc (list alarm) :=
  if decide (colunas_faltantes (columns df) = []) then
    match iterrows (columns df) (fillna <$> rows df) with
    | Retorna novos_alarmes =>
        ([MsgExcelEncontrados (length novos_alarmes)], Retorna novos_alarmes)
    | Levanta e => ([], Levanta e)
    end
  else ([MsgColunasFaltantes (colunas_faltantes (columns df))], Retorna []).

Definition _carregar_alarmes_excel (w : mundo frame)
    : mundo frame * list alarm :=
  match arq_excel w with
  | Retorna df =>
      match ingerir df with
      | (msgs, Retorna novos_alarmes) => (prints msgs w, novos_alarmes)
      | (_, Levanta FileNotFoundError) => (print MsgExcelNaoEncontrado w, [])
      | (_, Levanta ValueError) => (print MsgExcelErroValor w, [])
      | (_, Levanta e) => (print (MsgExcelErro e) w, [])
      end
  | Levanta FileNotFoundError => (print MsgExcelNaoEncontrado w, [])
  | Levanta ValueError => (print MsgExcelErroValor w, [])
  | Levanta e => (print (MsgExcelErro e) w, [])
  end.

Definition _salvar_yaml (data : list alarm) (w : mundo frame)
    : mundo frame :=
  print (MsgSalvo (length data)) (dump data w).

Definition executar_atualizacao (w : mundo frame) : mundo frame :=
  let '(w, alarmes_existentes) := _carregar_alarmes_yaml w in
  let '(w, novos_alarmes) := _carregar_alarmes_excel w in
  match novos_alarmes with
  | [] => print MsgNenhumNovo w
  | _ :: _ =>
      let ids_em_uso := ids_de alarmes_existentes in
      let '(alarmes_processados, msgs) := processar ids_em_uso novos_alarmes in
      let w := prints msgs w in
      let lista_final := alarmes_existentes ++ alarmes_processados in
      _salvar_yaml lista_final w
  end.

(** The two lists [executar_atualizacao] starts from, and the list it hands
    to [yaml.dump] when there is something new. *)
Definition existentes (w : mundo frame) : list alarm :=
  (_carregar_alarmes_yaml w).2.

Definition novos (w : mundo frame) : list alarm :=
  (_carregar_alarmes_excel w).2.

Definition lista_gravada (w : mundo frame) : list alarm :=
  existentes w ++ (processar (ids_de (existentes w)) (novos w)).1.

End Script.
End Titulos.

(** ** A concrete runtime *)

(** Decimal digits to a number, most significant first. *)
Fixpoint digitos (acc : Z) (s : pystr) : option Z :=
  match s with
  | [] => Some acc
  | c :: s' =>
      if ((48 <=? c) && (c <=? 57))%N
      then digitos (10 * acc + Z.of_N (c - 48)) s'
      else None
  end.

(** A runtime for running the scripts on examples: [int()] reads unsigned
    ASCII decimals between white space, and text beyond Latin-1 is lowered
    to itself. *)
Definition runtime_decimal : PyRuntime :=
  {| int_of_str := λ s,
       match strip s with
       | [] => None
       | d => digitos 0 d
       end;
     lower_unicode := λ s, s |}.

(** ** Sample inputs *)

(** A stored alarm and a row of the positional sheet with the same shape. *)
Definition alarme (i : Z) (nome : string) : alarm :=
  {| alarm_id := i; name := lit nome;
     text := {| text_text := lit "texto"; text1 := SBool true;
                text2 := lit "acao" |};
     config := {| config_config := lit "c"; subconfig1 := lit "s1";
                  subconfig2 := lit "s2" |} |}.

Definition linha (i : Z) (nome : string) : list scalar :=
  [SInt i; SStr (lit nome); SStr (lit "texto"); SStr (lit "Sim");
   SStr (lit "acao"); SStr (lit "c"); SStr (lit "s1"); SStr (lit "s2")].

(** Two stored alarms with the same identifier, one new row. *)
Definition mundo_duplicado : mundo Posicional.frame :=
  Mundo (Conteudo (YList [alarme 1 "a"; alarme 1 "b"]))
        (Retorna [linha 2 "c"]) [] [].

(** Stored alarms [5; 1], not in ascending order, one new row. *)
Definition mundo_desordenado : mundo Posicional.frame :=
  Mundo (Conteudo (YList [alarme 5 "a"; alarme 1 "b"]))
        (Retorna [linha 7 "c"]) [] [].

(** Stored alarms [1; 5], new rows asking for [5] and [6]. *)
Definition mundo_cenario : mundo Posicional.frame :=
  Mundo (Conteudo (YList [alarme 1 "a"; alarme 5 "b"]))
        (Retorna [linha 5 "c"; linha 6 "d"]) [] [].

(** A sheet with all the titles and two rows, one with a blank cell. *)
Definition quadro_titulos : Titulos.frame :=
  {| Titulos.columns := Titulos.values Titulos.mapa_de_colunas;
     Titulos.rows :=
       [[Some (lit "5"); Some (lit "c"); Some (lit "texto");
         Some (lit "Sim"); None; Some (lit "c"); Some (lit "s1");
         Some (lit "s2")];
        [Some (lit " 6 "); Some (lit "d"); Some (lit "texto");
         Some (lit "talvez"); Some (lit "acao"); Some (lit "c");
         Some (lit "s1"); Some (lit "s2")]] |}.

Definition mundo_titulos : mundo Titulos.frame :=
  Mundo (Conteudo (YList [alarme 5 "a"; alarme 1 "b"]))
        (Retorna quadro_titulos) [] [].

(** Sheets whose second row has a blank identifier cell. *)
Definition mundo_id_em_branco : mundo Posicional.frame :=
  Mundo (Conteudo (YList [alarme 1 "a"]))
        (Retorna [linha 2 "b";
                  [SNaN; SStr (lit "c"); SStr (lit "texto"); SStr (lit "Sim");
                   SStr (lit "acao"); SStr (lit "c"); SStr (lit "s1");
                   SStr (lit "s2")]]) [] [].

Definition quadro_id_em_branco : Titulos.frame :=
  {| Titulos.columns := Titulos.values Titulos.mapa_de_colunas;
     Titulos.rows :=
       [[Some (lit "5"); Some (lit "c"); Some (lit "texto");
         Some (lit "Sim"); None; Some (lit "c"); Some (lit "s1");
         Some (lit "s2")];
        [None; Some (lit "d"); Some (lit "texto");
         Some (lit "talvez"); Some (lit "acao"); Some (lit "c");
         Some (lit "s1"); Some (lit "s2")]] |}.

Definition mundo_titulos_id_em_branco : mundo Titulos.frame :=
  Mundo (Conteudo (YList [alarme 1 "a"])) (Retorna quadro_id_em_branco) [] [].

(** Sheets without rows. *)
Definition mundo_sem_novos : mundo Posicional.frame :=
  Mundo (Conteudo (YList [alarme 1 "a"; alarme 2 "b"])) (Retorna []) [] [].

Definition mundo_titulos_sem_novos : mundo Titulos.frame :=
  Mundo (Conteudo (YList [alarme 1 "a"; alarme 2 "b"]))
        (Retorna {| Titulos.columns := Titulos.values Titulos.mapa_de_colunas;
                    Titulos.rows := [] |}) [] [].

(** A sheet without the title ['ID do Alarme']. *)
Definition quadro_sem_id : Titulos.frame :=
  {| Titulos.columns := tail (Titulos.values Titulos.mapa_de_colunas);
     Titulos.rows :=
       [[Some (lit "c"); Some (lit "texto");
         Some (lit "Sim"); None; Some (lit "c"); Some (lit "s1");
         Some (lit "s2")]] |}.

Definition mundo_sem_id : mundo Titulos.frame :=
  Mundo (Conteudo (YList [alarme 1 "a"])) (Retorna quadro_sem_id) [] [].

(** Destinations that hold a mapping and an empty document. *)
Definition mundo_yaml_mapa : mundo Posicional.frame :=
  Mundo (Conteudo (YMapa 2)) (Retorna [linha 5 "c"; linha 5 "d"]) [] [].

Definition mundo_titulos_yaml_vazio : mundo Titulos.frame :=
  Mundo (Conteudo YNull) (Retorna quadro_titulos) [] [].

(** ** Definitions for the further properties *)

(** The conflicts a batch reports: one message per candidate whose
    identifier was changed, in batch order. *)
Definition conflitos (novos processados : list alarm) : list mensagem :=
  omap (λ '(c, p),
          if decide (alarm_id c = alarm_id p) then None
          else Some (MsgConflito (alarm_id c) (alarm_id p)))
       (zip novos processados).

(** What a candidate built from a row of the positional sheet holds. *)
Definition pos_le_linha {rt : PyRuntime} (row : list scalar) (a : alarm) : Prop :=
  row !! 0%nat ≫= py_int = Some (alarm_id a) ∧
  py_str <$> row !! 1%nat = Some (name a) ∧
  py_str <$> row !! 2%nat = Some (text_text (text a)) ∧
  _transformar_valor_booleano <$> row !! 3%nat = Some (text1 (text a)) ∧
  py_str <$> row !! 4%nat = Some (text2 (text a)) ∧
  py_str <$> row !! 5%nat = Some (config_config (config a)) ∧
  py_str <$> row !! 6%nat = Some (subconfig1 (config a)) ∧
  py_str <$> row !! 7%nat = Some (subconfig2 (config a)).

(** The cell of a row under a title, blank cells read as empty text;
    [None] when the sheet has no such title. *)
Definition tit_celula (cols : list string) (row : list (option pystr))
    (col : string) : option pystr :=
  '(i, _) ← list_find (λ c, c = col) cols;
  default [] <$> row !! i.

(** What a candidate built from a row of the titled sheet holds. *)
Definition tit_le_linha {rt : PyRuntime} (cols : list string)
    (row : list (option pystr)) (a : alarm) : Prop :=
  let m := Titulos.mapa_de_colunas in
  tit_celula cols row (Titulos.col_alarm_id m) ≫= int_of_str
    = Some (alarm_id a) ∧
  tit_celula cols row (Titulos.col_name m) = Some (name a) ∧
  tit_celula cols row (Titulos.col_text m) = Some (text_text (text a)) ∧
  (λ s, _transformar_valor_booleano (SStr s))
    <$> tit_celula cols row (Titulos.col_text1 m) = Some (text1 (text a)) ∧
  tit_celula cols row (Titulos.col_text2 m) = Some (text2 (text a)) ∧
  tit_celula cols row (Titulos.col_config m)
    = Some (config_config (config a)) ∧
  tit_celula cols row (Titulos.col_subconfig1 m)
    = Some (subconfig1 (config a)) ∧
  tit_celula cols row (Titulos.col_subconfig2 m)
    = Some (subconfig2 (config a)).

(** A row with cells of other columns before and after it. *)
Definition entre (n : nat) (row row' : list (option pystr)) : Prop :=
  ∃ antes depois, row' = antes ++ row ++ depois ∧ length antes = n.

(** A sheet with three columns only. *)
Definition mundo_linha_curta : mundo Posicional.frame :=
  Mundo (Conteudo (YList [alarme 1 "a"]))
        (Retorna [[SInt 2; SStr (lit "b"); SStr (lit "texto")]]) [] [].

(** Sources that cannot be read. *)
Definition mundo_sem_planilha : mundo Posicional.frame :=
  Mundo (Conteudo (YList [alarme 1 "a"])) (Levanta FileNotFoundError) [] [].

Definition mundo_titulos_sem_planilha : mundo Titulos.frame :=
  Mundo (Conteudo (YList [alarme 1 "a"])) (Levanta ValueError) [] [].

(** The titled sheet with the rows of [mundo_cenario]. *)
Definition quadro_cenario : Titulos.frame :=
  {| Titulos.columns := Titulos.values Titulos.mapa_de_colunas;
     Titulos.rows :=
       [[Some (lit "5"); Some (lit "c"); Some (lit "texto");
         Some (lit "Sim"); Some (lit "acao"); Some (lit "c");
         Some (lit "s1"); Some (lit "s2")];
        [Some (lit "6"); Some (lit "d"); Some (lit "texto");
         Some (lit "Sim"); Some (lit "acao"); Some (lit "c");
         Some (lit "s1"); Some (lit "s2")]] |}.

Definition mundo_titulos_cenario : mundo Titulos.frame :=
  Mundo (Conteudo (YList [alarme 1 "a"; alarme 5 "b"]))
        (Retorna quadro_cenario) [] [].

(** [quadro_titulos] with one more column on each side. *)
Definition quadro_titulos_largo : Titulos.frame :=
  {| Titulos.columns :=
       ["Obs"%string] ++ Titulos.values Titulos.mapa_de_colunas
       ++ ["Extra"%string];
     Titulos.rows :=
       (λ row, [Some (lit "x")] ++ row ++ [None])
         <$> Titulos.rows quadro_titulos |}.

Definition mundo_titulos_largo : mundo Titulos.frame :=
  Mundo (Conteudo (YList [alarme 5 "a"; alarme 1 "b"]))
        (Retorna quadro_titulos_largo) [] [].


(** Destinations of the title script that hold a mapping, and a list
    without records. *)
Definition mundo_titulos_yaml_mapa : mundo Titulos.frame :=
  Mundo (Conteudo (YMapa 2)) (Retorna quadro_titulos) [] [].

Definition mundo_titulos_lista_vazia : mundo Titulos.frame :=
  Mundo (Conteudo (YList [])) (Retorna quadro_titulos) [] [].

(** The scenario once more, the destination holding what a first run wrote. *)
Definition mundo_cenario_depois : mundo Posicional.frame :=
  Mundo (Conteudo (YList [alarme 1 "a"; alarme 5 "b"; alarme 6 "c";
                          alarme 7 "d"]))
        (Retorna [linha 5 "c"; linha 6 "d"]) [] [].

Definition mundo_titulos_cenario_depois : mundo Titulos.frame :=
  Mundo (Conteudo (YList [alarme 1 "a"; alarme 5 "b"; alarme 6 "c";
                          alarme 7 "d"]))
        (Retorna quadro_cenario) [] [].

(** * Properties *)

(** ** The inner loop *)

Section Probe.
Implicit Types (s : gset Z) (k r : Z).

(** What the loop has established when it exits. *)
Lemma while_em_uso_spec fuel s k r :
  while_em_uso fuel s k = Some r →
  k ≤ r ∧ (r ∉ s) ∧ (∀ j, k ≤ j < r → j ∈ s).
Proof.
  revert k. induction fuel as [|fuel IH]; intros k; simpl; [done|].
  case_decide as Hk.
  - intros Hr. destruct (IH _ Hr) as (Hle & Hfree & Hused).
    split; [lia|]. split; [done|].
    intros j Hj. destruct (decide (j = k)) as [->|]; [done|].
    apply Hused. lia.
  - intros [= <-]. split; [lia|]. split; [done|]. intros j Hj. lia.
Qed.

(** An iteration that does not exit leaves one identifier less to pass. *)
Lemma acima_suc s k : k ∈ s → acima s (k + 1) ⊂ acima s k.
Proof.
  intros Hk. unfold acima. split.
  - intros x. rewrite !elem_of_filter. intros [? ?]. split; [lia|done].
  - intros Hsub. assert (k ∈ filter (λ x, k + 1 ≤ x) s) as Hin.
    { apply Hsub, elem_of_filter. split; [lia|done]. }
    apply elem_of_filter in Hin as [? _]. lia.
Qed.

Lemma while_em_uso_fuel fuel s k :
  (size (acima s k) < fuel)%nat → is_Some (while_em_uso fuel s k).
Proof.
  revert k. induction fuel as [|fuel IH]; intros k Hsz; [lia|]. simpl.
  case_decide as Hk; [|by eexists].
  apply IH. pose proof (subset_size _ _ (acima_suc s k Hk)). lia.
Qed.

(** The loop exits within one more iteration than the set has elements. *)
Lemma while_em_uso_total s k : is_Some (while_em_uso (S (size s)) s k).
Proof.
  apply while_em_uso_fuel.
  assert (size (acima s k) ≤ size s)%nat; [|lia].
  apply subseteq_size. intros x. unfold acima. rewrite elem_of_filter. tauto.
Qed.

(** More iterations allowed do not change the result. *)
Lemma while_em_uso_mono fuel fuel' s k r :
  (fuel ≤ fuel')%nat →
  while_em_uso fuel s k = Some r → while_em_uso fuel' s k = Some r.
Proof.
  revert fuel' k. induction fuel as [|fuel IH]; intros fuel' k Hle; [done|].
  destruct fuel' as [|fuel']; [lia|]. simpl.
  case_decide; [|done]. apply IH. lia.
Qed.

Lemma proximo_livre_eq s k :
  while_em_uso (S (size s)) s k = Some (proximo_livre s k).
Proof.
  unfold proximo_livre. by destruct (while_em_uso_total s k) as [r ->].
Qed.

Lemma proximo_livre_spec s k :
  k ≤ proximo_livre s k ∧ (proximo_livre s k ∉ s) ∧
  (∀ j, k ≤ j < proximo_livre s k → j ∈ s).
Proof. eapply while_em_uso_spec, proximo_livre_eq. Qed.

(** The result is fixed by the run of taken identifiers from [k] on. *)
Lemma proximo_livre_run s k m :
  0 ≤ m → (∀ j, k ≤ j < k + m → j ∈ s) → k + m ∉ s →
  proximo_livre s k = k + m.
Proof.
  intros Hm Hused Hfree.
  destruct (proximo_livre_spec s k) as (Hle & Hfree' & Hused').
  destruct (Z.lt_trichotomy (proximo_livre s k) (k + m)) as [Hlt|[?|Hgt]];
    [|done|].
  - destruct Hfree'. apply Hused. lia.
  - destruct Hfree. apply Hused'. lia.
Qed.

Lemma proximo_livre_free s k : k ∉ s → proximo_livre s k = k.
Proof.
  intros Hk. rewrite <-(Z.add_0_r k) at 2.
  apply proximo_livre_run; [lia| |by rewrite Z.add_0_r]. intros j Hj. lia.
Qed.
End Probe.

(** ** One candidate, then the batch *)

Lemma resolver_livre s a : alarm_id (resolver s a).1 ∉ s.
Proof.
  unfold resolver. case_decide; simpl; [|done].
  apply proximo_livre_spec.
Qed.

Lemma resolver_id s a :
  alarm_id (resolver s a).1 = proximo_livre s (alarm_id a).
Proof.
  unfold resolver. case_decide; simpl; [done|].
  by rewrite proximo_livre_free.
Qed.

Lemma resolver_mesmo_resto s a : mesmo_resto a (resolver s a).1.
Proof. unfold resolver. by case_decide. Qed.

Lemma resolver_keeps s a : alarm_id a ∉ s → (resolver s a).1 = a.
Proof. intros ?. unfold resolver. by case_decide. Qed.

Lemma processar_cons s a l :
  (processar s (a :: l)).1 =
  (resolver s a).1 :: (processar (s ∪ {[alarm_id (resolver s a).1]}) l).1.
Proof.
  simpl. destruct (resolver s a) as [a' m]. simpl.
  by destruct (processar _ l).
Qed.

Lemma processar_length s l : length (processar s l).1 = length l.
Proof.
  revert s. induction l as [|a l IH]; intros s; [done|].
  rewrite processar_cons. simpl. by rewrite IH.
Qed.

Lemma processar_mesmo_resto s l : Forall2 mesmo_resto l (processar s l).1.
Proof.
  revert s. induction l as [|a l IH]; intros s; [constructor|].
  rewrite processar_cons. constructor; [apply resolver_mesmo_resto|apply IH].
Qed.

(** No processed identifier was in use before the loop. *)
Lemma processar_fora s l x : x ∈ ids (processar s l).1 → x ∉ s.
Proof.
  revert s. induction l as [|a l IH]; intros s.
  - simpl. by intros ?%elem_of_nil.
  - rewrite processar_cons. unfold ids. rewrite fmap_cons.
    intros [->|Hx]%elem_of_cons; [apply resolver_livre|].
    apply IH in Hx. intros Hs. apply Hx, elem_of_union. by left.
Qed.

Lemma processar_NoDup s l : NoDup (ids (processar s l).1).
Proof.
  revert s. induction l as [|a l IH]; intros s; [constructor|].
  rewrite processar_cons. unfold ids. rewrite fmap_cons.
  apply NoDup_cons. split; [|apply IH].
  intros Hin. apply processar_fora in Hin.
  apply Hin, elem_of_union. right. by apply elem_of_singleton.
Qed.

(** The loop on a batch cut in two: the second part runs with the
    identifiers of the processed first part in use. *)
Lemma processar_app s l1 l2 :
  (processar s (l1 ++ l2)).1 =
  (processar s l1).1 ++
  (processar (s ∪ list_to_set (ids (processar s l1).1)) l2).1.
Proof.
  revert s. induction l1 as [|a l1 IH]; intros s.
  - simpl. by rewrite (right_id_L ∅ (∪)).
  - rewrite <-app_comm_cons, !processar_cons. simpl. f_equal.
    rewrite IH. by rewrite (assoc_L (∪)).
Qed.

Lemma ids_app l1 l2 : ids (l1 ++ l2) = ids l1 ++ ids l2.
Proof. apply fmap_app. Qed.

Lemma elem_of_ids_de x l : x ∈ ids_de l ↔ x ∈ ids l.
Proof. apply elem_of_list_to_set. Qed.

(** Appending the processed candidates keeps the identifiers distinct. *)
Lemma NoDup_merge E N :
  NoDup (ids E) → NoDup (ids (E ++ (processar (ids_de E) N).1)).
Proof.
  intros HE. rewrite ids_app. apply NoDup_app. split; [done|].
  split; [|apply processar_NoDup].
  intros x Hx HP. apply processar_fora in HP. by apply HP, elem_of_ids_de.
Qed.

(** ** Sorting *)

Section Stable.
Context {A : Type} (key : A → Z).

Lemma inserir_perm x l : inserir key x l ≡ₚ x :: l.
Proof.
  induction l as [|y l IH]; simpl; [done|].
  case_match; [done|]. rewrite IH. apply Permutation_swap.
Qed.

Lemma sorted_perm l : sorted key l ≡ₚ l.
Proof.
  induction l as [|x l IH]; simpl; [done|].
  rewrite inserir_perm. by constructor.
Qed.

Lemma sorted_length l : length (sorted key l) = length l.
Proof. by rewrite sorted_perm. Qed.

Lemma inserir_HdRel x y L :
  key y ≤ key x → HdRel (λ a b, key a ≤ key b) y L →
  HdRel (λ a b, key a ≤ key b) y (inserir key x L).
Proof.
  intros Hyx Hhd. destruct L as [|z L]; simpl; [by constructor|].
  destruct (key x <=? key z); constructor; [done|by inversion Hhd].
Qed.

Lemma inserir_Sorted x L :
  Sorted (λ a b, key a ≤ key b) L →
  Sorted (λ a b, key a ≤ key b) (inserir key x L).
Proof.
  induction 1 as [|y L HL IH Hhd]; simpl; [by repeat constructor|].
  destruct (key x <=? key y) eqn:Hxy.
  - constructor; [by constructor|]. constructor. lia.
  - constructor; [done|]. apply inserir_HdRel; [lia|done].
Qed.

(** [sorted] returns an ascending list. *)
Lemma sorted_Sorted l : Sorted (λ a b, key a ≤ key b) (sorted key l).
Proof.
  induction l as [|x l IH]; simpl; [constructor|]. by apply inserir_Sorted.
Qed.

Lemma inserir_sublist x l L :
  l `sublist_of` L → Forall (λ y, key x ≤ key y) l →
  x :: l `sublist_of` inserir key x L.
Proof.
  revert l. induction L as [|y L IH]; intros l Hsub Hge; simpl.
  - apply sublist_nil_r in Hsub as ->. done.
  - destruct (key x <=? key y) eqn:Hxy; [by apply sublist_skip|].
    apply sublist_cons, IH; [|done].
    apply sublist_cons_r in Hsub as [?|(l' & -> & ?)]; [done|].
    apply Forall_cons in Hge as [Hge _]. lia.
Qed.

(** [sorted] is stable: an ascending prefix of its argument keeps its
    order in the result. *)
Lemma sorted_sublist l1 l2 :
  StronglySorted (λ a b, key a ≤ key b) l1 →
  l1 `sublist_of` sorted key (l1 ++ l2).
Proof.
  induction 1 as [|x l1 Hl1 IH Hx]; [apply sublist_nil_l|].
  simpl. by apply inserir_sublist.
Qed.
End Stable.

Lemma ids_sorted l : ids (sorted alarm_id l) ≡ₚ ids l.
Proof. unfold ids. by rewrite sorted_perm. Qed.

(** ** Loops that may raise *)

Section ParaCada.
Context {A B : Type} (f : A → exc B).

Lemma para_cada_retorna xs ys :
  para_cada f xs = Retorna ys → Forall (λ x, ∃ y, f x = Retorna y) xs.
Proof.
  revert ys. induction xs as [|x xs IH]; intros ys; [constructor|].
  simpl. destruct (f x) as [y|e] eqn:Ef; simpl; [|done].
  destruct (para_cada f xs) as [ys'|e] eqn:Efs; simpl; [|done].
  intros _. constructor; [by eexists|by eapply IH].
Qed.

Lemma para_cada_levanta xs e :
  para_cada f xs = Levanta e → ∃ x, x ∈ xs ∧ f x = Levanta e.
Proof.
  induction xs as [|x xs IH]; simpl; [done|].
  destruct (f x) as [y|e'] eqn:Ef; simpl.
  - destruct (para_cada f xs) as [ys'|e'] eqn:Efs; simpl; [done|].
    intros [= ->]. destruct IH as (x' & ? & ?); [done|].
    exists x'. split; [by right|done].
  - intros [= ->]. exists x. split; [by left|done].
Qed.

(** A row on which the body raises makes the loop raise. *)
Lemma para_cada_aborta xs :
  Exists (λ x, ∃ e, f x = Levanta e) xs → ∃ e, para_cada f xs = Levanta e.
Proof.
  intros Hex. destruct (para_cada f xs) as [ys|e] eqn:E; [|by eexists].
  apply para_cada_retorna in E. apply Exists_exists in Hex as (x & Hx & e & He).
  rewrite Forall_forall in E. destruct (E x Hx) as [y Hy]. congruence.
Qed.
End ParaCada.

(** ** What a run leaves behind *)

(** Closes the branch in which a step of a row's body has raised. *)
Ltac levantou := simpl; try (intros [= <-]; auto; fail).

Section Posicional_facts.
Context {rt : PyRuntime}.
Import Posicional.
Implicit Types w : mundo frame.

Lemma pos_yaml_frame w :
  arq_yaml (_carregar_alarmes_yaml w).1 = arq_yaml w ∧
  arq_excel (_carregar_alarmes_yaml w).1 = arq_excel w ∧
  gravacoes (_carregar_alarmes_yaml w).1 = gravacoes w.
Proof.
  unfold _carregar_alarmes_yaml.
  destruct (arq_yaml w) as [| |[]] eqn:E; simpl; by rewrite ?E.
Qed.

Lemma pos_excel_frame w :
  arq_yaml (_carregar_alarmes_excel w).1 = arq_yaml w ∧
  gravacoes (_carregar_alarmes_excel w).1 = gravacoes w.
Proof.
  unfold _carregar_alarmes_excel.
  destruct (arq_excel w ≫= iterrows) as [?|[]]; done.
Qed.

Lemma pos_excel_ext w w' :
  arq_excel w' = arq_excel w →
  (_carregar_alarmes_excel w').2 = (_carregar_alarmes_excel w).2.
Proof.
  intros E. unfold _carregar_alarmes_excel. rewrite E.
  destruct (arq_excel w ≫= iterrows) as [?|[]]; done.
Qed.

(** The destination file and the payloads after a run. *)
Lemma pos_executar w :
  arq_yaml (executar_atualizacao w) =
    (if decide (novos w = []) then arq_yaml w
     else Conteudo (YList (lista_gravada w))) ∧
  gravacoes (executar_atualizacao w) =
    (if decide (novos w = []) then gravacoes w
     else gravacoes w ++ [lista_gravada w]).
Proof.
  unfold executar_atualizacao, lista_gravada, novos, existentes.
  destruct (pos_yaml_frame w) as (Hy & He & Hg).
  pose proof (pos_excel_ext w _ He) as Hn.
  destruct (_carregar_alarmes_yaml w) as [w1 E]. simpl in *.
  destruct (pos_excel_frame w1) as (Hy' & Hg').
  destruct (_carregar_alarmes_excel w1) as [w2 N]. simpl in *. subst N.
  destruct (_carregar_alarmes_excel w).2 as [|c N] eqn:EN.
  - rewrite decide_True by done. simpl. split; congruence.
  - rewrite decide_False by done.
    destruct (processar (ids_de E) (c :: N)) as [P msgs]. simpl.
    split; [done|]. congruence.
Qed.

Lemma pos_persistido_executar w :
  persistido (executar_atualizacao w) =
  if decide (novos w = []) then persistido w else Some (lista_gravada w).
Proof.
  unfold persistido. rewrite (proj1 (pos_executar w)). by case_decide.
Qed.

Lemma pos_sem_novos w :
  novos w = [] →
  arq_yaml (executar_atualizacao w) = arq_yaml w ∧
  gravacoes (executar_atualizacao w) = gravacoes w.
Proof.
  intros HN. destruct (pos_executar w) as [-> ->]. by rewrite !decide_True.
Qed.

Lemma pos_existentes_persistido w l :
  persistido w = Some l → existentes w = l.
Proof.
  unfold persistido, existentes, _carregar_alarmes_yaml.
  destruct (arq_yaml w) as [| |[]]; simpl; congruence.
Qed.

Lemma pos_lista_gravada_NoDup w :
  NoDup (ids (existentes w)) → NoDup (ids (lista_gravada w)).
Proof.
  intros HE. unfold lista_gravada. rewrite ids_sorted. by apply NoDup_merge.
Qed.

(** What the positional script writes is ascending by [alarm_id]. *)
Lemma pos_lista_gravada_Sorted w :
  Sorted (λ a b, alarm_id a ≤ alarm_id b) (lista_gravada w).
Proof. apply sorted_Sorted. Qed.

(** Existing records that are ascending keep their order in what the
    positional script writes. *)
Lemma pos_existentes_ascendentes w :
  StronglySorted (λ a b, alarm_id a ≤ alarm_id b) (existentes w) →
  existentes w `sublist_of` lista_gravada w.
Proof. apply sorted_sublist. Qed.

(** *** Rows *)

Lemma pos_alarm_data_malformado row :
  id_malformado row →
  alarm_data row = Levanta KeyError ∨ alarm_data row = Levanta ValueError.
Proof.
  unfold id_malformado, alarm_data, celula, int_exc.
  destruct (row !! 0%nat) as [v|]; [|done].
  destruct (py_int v) eqn:Hv; [done|]. intros _.
  destruct (row !! 3%nat); simpl; rewrite ?Hv; auto.
Qed.

Lemma pos_alarm_data_largo row :
  (8 ≤ length row)%nat →
  if id_malformado row then alarm_data row = Levanta ValueError
  else ∃ a, alarm_data row = Retorna a.
Proof.
  intros Hlen. unfold id_malformado, alarm_data, celula, int_exc.
  do 8 (destruct row as [|? row]; [simpl in Hlen; lia|]). simpl.
  destruct (py_int _); simpl; [by eexists|done].
Qed.

Lemma pos_alarm_data_excecao row e :
  alarm_data row = Levanta e → e = KeyError ∨ e = ValueError.
Proof.
  unfold alarm_data, celula, int_exc.
  destruct (row !! 3%nat); levantou.
  destruct (row !! 0%nat); levantou.
  destruct (py_int _); levantou.
  destruct (row !! 1%nat); levantou.
  destruct (row !! 2%nat); levantou.
  destruct (row !! 4%nat); levantou.
  destruct (row !! 5%nat); levantou.
  destruct (row !! 6%nat); levantou.
  destruct (row !! 7%nat); levantou.
Qed.

Lemma pos_excel_malformado w df :
  arq_excel w = Retorna df → Exists (λ row, id_malformado row) df →
  (_carregar_alarmes_excel w = (print (MsgExcelErro KeyError) w, []) ∨
   _carregar_alarmes_excel w = (print (MsgExcelErro ValueError) w, [])) ∧
  (Forall (λ row, 8 ≤ length row)%nat df →
   _carregar_alarmes_excel w = (print (MsgExcelErro ValueError) w, [])).
Proof.
  intros Hdf Hbad. unfold _carregar_alarmes_excel. rewrite Hdf. simpl.
  unfold iterrows.
  destruct (para_cada_aborta alarm_data df) as [e He].
  { eapply Exists_impl; [done|]. intros row Hrow.
    destruct (pos_alarm_data_malformado row Hrow); by eexists. }
  rewrite He. apply para_cada_levanta in He as (row & Hin & Hrow).
  split.
  - destruct (pos_alarm_data_excecao _ _ Hrow) as [-> | ->]; auto.
  - intros Hlargo. rewrite Forall_forall in Hlargo.
    pose proof (pos_alarm_data_largo row (Hlargo _ Hin)) as Hl.
    destruct (id_malformado row).
    + rewrite Hrow in Hl. by injection Hl as ->.
    + destruct Hl as [a Ha]. congruence.
Qed.
End Posicional_facts.

Section Titulos_facts.
Context {rt : PyRuntime}.
Import Titulos.
Implicit Types w : mundo frame.

Lemma tit_yaml_frame w :
  arq_yaml (_carregar_alarmes_yaml w).1 = arq_yaml w ∧
  arq_excel (_carregar_alarmes_yaml w).1 = arq_excel w ∧
  gravacoes (_carregar_alarmes_yaml w).1 = gravacoes w.
Proof.
  unfold _carregar_alarmes_yaml.
  destruct (arq_yaml w) as [| |d] eqn:E; simpl; rewrite ?E; [done..|].
  destruct (truthy d); [destruct d|]; simpl; by rewrite ?E.
Qed.

Lemma tit_excel_frame w :
  arq_yaml (_carregar_alarmes_excel w).1 = arq_yaml w ∧
  gravacoes (_carregar_alarmes_excel w).1 = gravacoes w.
Proof.
  unfold _carregar_alarmes_excel.
  destruct (arq_excel w) as [df|[]]; [|done..].
  destruct (ingerir df) as [? [?|[]]]; done.
Qed.

Lemma tit_excel_ext w w' :
  arq_excel w' = arq_excel w →
  (_carregar_alarmes_excel w').2 = (_carregar_alarmes_excel w).2.
Proof.
  intros E. unfold _carregar_alarmes_excel. rewrite E.
  destruct (arq_excel w) as [df|[]]; [|done..].
  destruct (ingerir df) as [? [?|[]]]; done.
Qed.

(** The destination file and the payloads after a run. *)
Lemma tit_executar w :
  arq_yaml (executar_atualizacao w) =
    (if decide (novos w = []) then arq_yaml w
     else Conteudo (YList (lista_gravada w))) ∧
  gravacoes (executar_atualizacao w) =
    (if decide (novos w = []) then gravacoes w
     else gravacoes w ++ [lista_gravada w]).
Proof.
  unfold executar_atualizacao, lista_gravada, novos, existentes.
  destruct (tit_yaml_frame w) as (Hy & He & Hg).
  pose proof (tit_excel_ext w _ He) as Hn.
  destruct (_carregar_alarmes_yaml w) as [w1 E]. simpl in *.
  destruct (tit_excel_frame w1) as (Hy' & Hg').
  destruct (_carregar_alarmes_excel w1) as [w2 N]. simpl in *. subst N.
  destruct (_carregar_alarmes_excel w).2 as [|c N] eqn:EN.
  - rewrite decide_True by done. simpl. split; congruence.
  - rewrite decide_False by done.
    destruct (processar (ids_de E) (c :: N)) as [P msgs]. simpl.
    split; [done|]. congruence.
Qed.

Lemma tit_persistido_executar w :
  persistido (executar_atualizacao w) =
  if decide (novos w = []) then persistido w else Some (lista_gravada w).
Proof.
  unfold persistido. rewrite (proj1 (tit_executar w)). by case_decide.
Qed.

Lemma tit_sem_novos w :
  novos w = [] →
  arq_yaml (executar_atualizacao w) = arq_yaml w ∧
  gravacoes (executar_atualizacao w) = gravacoes w.
Proof.
  intros HN. destruct (tit_executar w) as [-> ->]. by rewrite !decide_True.
Qed.

Lemma tit_existentes_persistido w l :
  persistido w = Some l → existentes w = l.
Proof.
  unfold persistido, existentes, _carregar_alarmes_yaml.
  destruct (arq_yaml w) as [| |[| l' | |]]; simpl; try congruence.
  intros [= ->]. by destruct l.
Qed.

(** The title script keeps the existing records in front, in their order. *)
Lemma tit_existentes_prefixo w :
  novos w ≠ [] →
  ∃ processados,
    persistido (executar_atualizacao w) = Some (existentes w ++ processados).
Proof.
  intros HN. eexists. rewrite tit_persistido_executar.
  rewrite decide_False by done. reflexivity.
Qed.

(** *** Rows *)

Lemma campo_presente cols row col :
  col ∈ cols → length row = length cols →
  ∃ v, campo cols row col = Retorna v.
Proof.
  intros Hin Hlen. unfold campo.
  destruct (list_find_elem_of (λ c, c = col) cols col Hin eq_refl)
    as [[i c] Hfind].
  rewrite Hfind. apply list_find_Some in Hfind as (Hi & _).
  apply lookup_lt_Some in Hi. rewrite <-Hlen in Hi.
  destruct (lookup_lt_is_Some_2 row i Hi) as [v ->]. by eexists.
Qed.

Lemma colunas_presentes cols col :
  colunas_faltantes cols = [] → col ∈ values mapa_de_colunas → col ∈ cols.
Proof.
  intros Hnil Hcol. destruct (decide (col ∈ cols)) as [|Hout]; [done|].
  by destruct (filter_nil_not_elem_of _ _ col Hnil Hout).
Qed.

Lemma tit_alarm_data_malformado cols row :
  id_malformado cols row → alarm_data cols (fillna row) = Levanta ValueError.
Proof.
  unfold id_malformado, alarm_data, int_exc. simpl.
  destruct (campo cols (fillna row) _) as [s|]; [|done]. simpl.
  destruct (int_of_str s) eqn:Hs; [done|]. by rewrite ?Hs.
Qed.

Lemma tit_alarm_data_completo cols row :
  colunas_faltantes cols = [] → length row = length cols →
  alarm_data cols row = Levanta ValueError ∨
  ∃ a, alarm_data cols row = Retorna a.
Proof.
  intros Hcols Hlen. unfold alarm_data, int_exc.
  repeat match goal with
  | |- context [campo cols row ?c] =>
      let v := fresh "v" in let Hv := fresh "Hv" in
      destruct (campo_presente cols row c) as [v Hv];
      [apply colunas_presentes; [done|compute_done]|done|];
      rewrite Hv; clear Hv; simpl
  end.
  destruct (int_of_str _); simpl; eauto.
Qed.

Lemma tit_excel_malformado w df :
  arq_excel w = Retorna df →
  Exists (λ row, id_malformado (columns df) row) (rows df) →
  novos w = [] ∧
  (colunas_faltantes (columns df) = [] →
   Forall (λ row, length row = length (columns df)) (rows df) →
   _carregar_alarmes_excel w = (print MsgExcelErroValor w, [])).
Proof.
  intros Hdf Hbad. unfold novos, _carregar_alarmes_excel, ingerir.
  rewrite Hdf. unfold iterrows.
  destruct (para_cada_aborta (alarm_data (columns df)) (fillna <$> rows df))
    as [e He].
  { apply Exists_fmap. eapply Exists_impl; [done|]. intros row Hrow. simpl.
    rewrite (tit_alarm_data_malformado _ _ Hrow). by eexists. }
  split.
  - case_decide; [|done]. rewrite He. by destruct e.
  - intros Hcols Hlen. rewrite decide_True by done. rewrite He.
    apply para_cada_levanta in He as (row & Hin & Hrow).
    apply list_elem_of_fmap in Hin as (row' & -> & Hin).
    rewrite Forall_forall in Hlen.
    assert (length (fillna row') = length (columns df)) as Hlen'.
    { unfold fillna. rewrite length_fmap. by apply Hlen. }
    destruct (tit_alarm_data_completo _ _ Hcols Hlen') as [Hv|[a Ha]];
      [|congruence].
    rewrite Hv in Hrow. by injection Hrow as <-.
Qed.

Lemma tit_excel_colunas w df :
  arq_excel w = Retorna df → colunas_faltantes (columns df) ≠ [] →
  _carregar_alarmes_excel w =
    (print (MsgColunasFaltantes (colunas_faltantes (columns df))) w, []).
Proof.
  intros Hdf Hfalta. unfold _carregar_alarmes_excel, ingerir. rewrite Hdf.
  by rewrite decide_False.
Qed.
End Titulos_facts.

(** * The claims of the specification *)

(** C1, as amended: when the alarm_id values of the existing collection are
    pairwise distinct, the list in the destination after a run has pairwise
    distinct alarm_id values, for every candidate batch; when the batch is
    not empty that list is the one the run has written.  Both scripts. *)
Theorem merge_ids_distinct {rt : PyRuntime} :
  (∀ w : mundo Posicional.frame,
     NoDup (ids (Posicional.existentes w)) →
     (∀ out, persistido (Posicional.executar_atualizacao w) = Some out →
             NoDup (ids out)) ∧
     (Posicional.novos w ≠ [] →
      ∃ out, persistido (Posicional.executar_atualizacao w) = Some out ∧
             gravacoes (Posicional.executar_atualizacao w)
               = gravacoes w ++ [out])) ∧
  (∀ w : mundo Titulos.frame,
     NoDup (ids (Titulos.existentes w)) →
     (∀ out, persistido (Titulos.executar_atualizacao w) = Some out →
             NoDup (ids out)) ∧
     (Titulos.novos w ≠ [] →
      ∃ out, persistido (Titulos.executar_atualizacao w) = Some out ∧
             gravacoes (Titulos.executar_atualizacao w)
               = gravacoes w ++ [out])).
Proof.
  split; intros w HE; split.
  - intros out. rewrite pos_persistido_executar. case_decide.
    + intros Hp. by rewrite <-(pos_existentes_persistido _ _ Hp).
    + intros [= <-]. by apply pos_lista_gravada_NoDup.
  - intros HN. exists (Posicional.lista_gravada w).
    rewrite pos_persistido_executar, (proj2 (pos_executar w)).
    by rewrite !decide_False.
  - intros out. rewrite tit_persistido_executar. case_decide.
    + intros Hp. by rewrite <-(tit_existentes_persistido _ _ Hp).
    + intros [= <-]. by apply NoDup_merge.
  - intros HN. exists (Titulos.lista_gravada w).
    rewrite tit_persistido_executar, (proj2 (tit_executar w)).
    by rewrite !decide_False.
Qed.

(** C1, witness: a run of each script on distinct existing identifiers. *)
Lemma merge_ids_distinct_witness :
  (∃ out, persistido (Posicional.executar_atualizacao
                        (rt:=runtime_decimal) mundo_desordenado) = Some out ∧
          NoDup (ids out)) ∧
  (∃ out, persistido (Titulos.executar_atualizacao
                        (rt:=runtime_decimal) mundo_titulos) = Some out ∧
          NoDup (ids out)).
Proof.
  destruct (merge_ids_distinct (rt:=runtime_decimal)) as [Hp Ht]. split.
  - destruct (Hp mundo_desordenado) as [Hall Hex]; [compute_done|].
    destruct Hex as (out & Hout & _); [compute_done|].
    exists out. split; [done|]. by apply Hall.
  - destruct (Ht mundo_titulos) as [Hall Hex]; [compute_done|].
    destruct Hex as (out & Hout & _); [compute_done|].
    exists out. split; [done|]. by apply Hall.
Defined.

(** C1 as stated fails: two existing records with the same alarm_id are
    both in the list the run writes. *)
Lemma merge_ids_distinct_counterexample :
  ∃ out, persistido (Posicional.executar_atualizacao
                       (rt:=runtime_decimal) mundo_duplicado) = Some out ∧
         ids out = [1; 1; 2] ∧ ¬ NoDup (ids out).
Proof.
  eexists. split; [vm_compute; reflexivity|]. split; [reflexivity|].
  compute_done.
Qed.

(** C2, at the failing input: the positional script reads the existing
    records [5; 1] and writes them in the order [1; 5]. *)
Theorem sorted_save_reorders_existing :
  ids (Posicional.existentes mundo_desordenado) = [5; 1] ∧
  ids <$> persistido (Posicional.executar_atualizacao
                        (rt:=runtime_decimal) mundo_desordenado)
    = Some [1; 5; 7].
Proof. split; vm_compute; reflexivity. Qed.

(** C3: a candidate that asks for [k] while [k .. k+m-1] are in use (by the
    existing records and the candidates processed before it) and [k+m] is
    free is processed into a record whose alarm_id is [k+m] and whose other
    fields are its own; with [m = 0] it is left as it is. *)
Theorem probe_assigns_first_free (existentes pre post : list alarm)
    (c : alarm) (m : Z) :
  let em_uso :=
    ids_de existentes
    ∪ list_to_set (ids (processar (ids_de existentes) pre).1) in
  let processados := (processar (ids_de existentes) (pre ++ c :: post)).1 in
  0 ≤ m →
  (∀ j, alarm_id c ≤ j < alarm_id c + m → j ∈ em_uso) →
  alarm_id c + m ∉ em_uso →
  ∃ p,
    processados !! length pre = Some p ∧
    alarm_id p = alarm_id c + m ∧
    name p = name c ∧ text p = text c ∧ config p = config c ∧
    (m = 0 → p = c).
Proof.
  intros em_uso processados Hm Hused Hfree.
  exists (resolver em_uso c).1. split.
  { unfold processados. rewrite processar_app, processar_cons.
    rewrite lookup_app_r; rewrite processar_length; [|lia].
    by rewrite Nat.sub_diag. }
  split.
  { rewrite resolver_id. by apply proximo_livre_run. }
  destruct (resolver_mesmo_resto em_uso c) as (Hn & Ht & Hc).
  split; [done|]. split; [done|]. split; [done|].
  intros ->. apply resolver_keeps. by rewrite Z.add_0_r in Hfree.
Qed.

(** C3, witness: the scenario of the specification.  With [1] and [5]
    stored and a first candidate moved from [5] to [6], the candidate asking
    for [6] gets [7]. *)
Lemma probe_assigns_first_free_witness :
  ∃ p,
    (processar (ids_de [alarme 1 "a"; alarme 5 "b"])
       ([alarme 5 "c"] ++ alarme 6 "d" :: [])).1 !! length [alarme 5 "c"]
    = Some p ∧
    alarm_id p = 7 ∧ name p = lit "d".
Proof.
  destruct (probe_assigns_first_free [alarme 1 "a"; alarme 5 "b"]
              [alarme 5 "c"] [] (alarme 6 "d") 1)
    as (p & Hp & Hid & Hname & _).
  - lia.
  - intros j Hj. assert (j = 6) as -> by (simpl in Hj; lia). compute_done.
  - compute_done.
  - exists p. split; [exact Hp|]. split; [exact Hid|exact Hname].
Defined.

(** The same scenario, run: [5] then [6] become [6] then [7], with the
    two conflicts printed. *)
Example cenario_5_6 :
  ids (processar (ids_de [alarme 1 "a"; alarme 5 "b"])
         [alarme 5 "c"; alarme 6 "d"]).1 = [6; 7] ∧
  ids <$> persistido (Posicional.executar_atualizacao
                        (rt:=runtime_decimal) mundo_cenario)
    = Some [1; 5; 6; 7] ∧
  console (Posicional.executar_atualizacao (rt:=runtime_decimal) mundo_cenario)
    = [MsgYamlEncontrados 2; MsgExcelEncontrados 2; MsgConflito 5 6;
       MsgConflito 6 7; MsgSalvo 4].
Proof. repeat split; vm_compute; reflexivity. Qed.

(** C4: a row whose identifier cell is not numeric aborts the ingestion: no
    candidate is returned, the error of [int()] is what is reported when the
    sheet has all its columns, and the destination is not written.  Both
    scripts. *)
Theorem malformed_id_aborts {rt : PyRuntime} :
  (∀ (w : mundo Posicional.frame) df,
     arq_excel w = Retorna df →
     Exists (λ row, Posicional.id_malformado row) df →
     Posicional.novos w = [] ∧
     (Forall (λ row, 8 ≤ length row)%nat df →
      Posicional._carregar_alarmes_excel w
        = (print (MsgExcelErro ValueError) w, [])) ∧
     arq_yaml (Posicional.executar_atualizacao w) = arq_yaml w ∧
     gravacoes (Posicional.executar_atualizacao w) = gravacoes w) ∧
  (∀ (w : mundo Titulos.frame) df,
     arq_excel w = Retorna df →
     Exists (λ row, Titulos.id_malformado (Titulos.columns df) row)
            (Titulos.rows df) →
     Titulos.novos w = [] ∧
     (Titulos.colunas_faltantes (Titulos.columns df) = [] →
      Forall (λ row, length row = length (Titulos.columns df))
             (Titulos.rows df) →
      Titulos._carregar_alarmes_excel w = (print MsgExcelErroValor w, [])) ∧
     arq_yaml (Titulos.executar_atualizacao w) = arq_yaml w ∧
     gravacoes (Titulos.executar_atualizacao w) = gravacoes w).
Proof.
  split; intros w df Hdf Hbad.
  - destruct (pos_excel_malformado w df Hdf Hbad) as [Hmsg Hval].
    assert (Posicional.novos w = []) as HN.
    { unfold Posicional.novos. by destruct Hmsg as [-> | ->]. }
    split; [done|]. split; [done|]. by apply pos_sem_novos.
  - destruct (tit_excel_malformado w df Hdf Hbad) as [HN Hval].
    split; [done|]. split; [done|]. by apply tit_sem_novos.
Qed.

(** C4, witness: sheets whose second row has a blank identifier cell. *)
Lemma malformed_id_aborts_witness :
  (Posicional.novos (rt:=runtime_decimal) mundo_id_em_branco = [] ∧
   Posicional._carregar_alarmes_excel (rt:=runtime_decimal) mundo_id_em_branco
     = (print (MsgExcelErro ValueError) mundo_id_em_branco, []) ∧
   gravacoes (Posicional.executar_atualizacao (rt:=runtime_decimal)
                mundo_id_em_branco) = []) ∧
  (Titulos.novos (rt:=runtime_decimal) mundo_titulos_id_em_branco = [] ∧
   Titulos._carregar_alarmes_excel (rt:=runtime_decimal)
     mundo_titulos_id_em_branco
     = (print MsgExcelErroValor mundo_titulos_id_em_branco, []) ∧
   gravacoes (Titulos.executar_atualizacao (rt:=runtime_decimal)
                mundo_titulos_id_em_branco) = []).
Proof.
  destruct (malformed_id_aborts (rt:=runtime_decimal)) as [Hp Ht]. split.
  - destruct (Hp mundo_id_em_branco _ eq_refl) as (HN & Hm & _ & Hg);
      [compute_done|].
    split; [done|]. split; [|done]. apply Hm. compute_done.
  - destruct (Ht mundo_titulos_id_em_branco _ eq_refl) as (HN & Hm & _ & Hg);
      [compute_done|].
    split; [done|]. split; [|done]. apply Hm; compute_done.
Defined.

(** C5: the transform gives [True] when [str(v).strip().lower()] is
    ['sim'], [False] when it is ['não'], and [v] itself otherwise; on the
    inputs of the specification it gives the values stated there. *)
Theorem transformar_valor_booleano_spec {rt : PyRuntime} :
  (∀ v, lower (strip (py_str v)) = tok_sim →
        _transformar_valor_booleano v = SBool true) ∧
  (∀ v, lower (strip (py_str v)) = tok_nao →
        _transformar_valor_booleano v = SBool false) ∧
  (∀ v, lower (strip (py_str v)) ≠ tok_sim →
        lower (strip (py_str v)) ≠ tok_nao →
        _transformar_valor_booleano v = v) ∧
  _transformar_valor_booleano (SStr (lit "sim")) = SBool true ∧
  _transformar_valor_booleano (SStr (lit " SIM ")) = SBool true ∧
  _transformar_valor_booleano (SStr (lit "Sim")) = SBool true ∧
  _transformar_valor_booleano (SStr (lit "n" ++ [227%N] ++ lit "o"))
    = SBool false ∧
  _transformar_valor_booleano (SStr (lit "N" ++ [195%N] ++ lit "O"))
    = SBool false ∧
  _transformar_valor_booleano (SStr (lit "talvez")) = SStr (lit "talvez") ∧
  _transformar_valor_booleano (SStr (lit "3")) = SStr (lit "3") ∧
  _transformar_valor_booleano (SInt 3) = SInt 3.
Proof.
  split; [|split; [|split]].
  - intros v Hv. unfold _transformar_valor_booleano. by rewrite decide_True.
  - intros v Hv. unfold _transformar_valor_booleano.
    rewrite decide_False, decide_True; [done..|]. by rewrite Hv.
  - intros v H1 H2. unfold _transformar_valor_booleano.
    by rewrite !decide_False.
  - repeat split; reflexivity.
Qed.

(** C5, witness: the three cases on text with white space around it. *)
Lemma transformar_valor_booleano_spec_witness :
  _transformar_valor_booleano (rt:=runtime_decimal)
    (SStr (lit "  sIm" ++ [10%N])) = SBool true ∧
  _transformar_valor_booleano (rt:=runtime_decimal)
    (SStr ([160%N] ++ lit "N" ++ [227%N] ++ lit "O ")) = SBool false ∧
  _transformar_valor_booleano (rt:=runtime_decimal) (SBool true) = SBool true ∧
  _transformar_valor_booleano (rt:=runtime_decimal) SNaN = SNaN.
Proof.
  destruct (transformar_valor_booleano_spec (rt:=runtime_decimal))
    as (Hsim & Hnao & Houtro & _).
  split; [apply Hsim; reflexivity|]. split; [apply Hnao; reflexivity|].
  split; apply Houtro; compute_done.
Defined.

(** C6: with no candidate the run writes nothing and the destination file
    is as it was.  Both scripts. *)
Theorem empty_batch_writes_nothing {rt : PyRuntime} :
  (∀ w : mundo Posicional.frame,
     Posicional.novos w = [] →
     arq_yaml (Posicional.executar_atualizacao w) = arq_yaml w ∧
     gravacoes (Posicional.executar_atualizacao w) = gravacoes w) ∧
  (∀ w : mundo Titulos.frame,
     Titulos.novos w = [] →
     arq_yaml (Titulos.executar_atualizacao w) = arq_yaml w ∧
     gravacoes (Titulos.executar_atualizacao w) = gravacoes w).
Proof. split; intros w; [apply pos_sem_novos|apply tit_sem_novos]. Qed.

(** C6, witness: two stored alarms and a sheet without rows. *)
Lemma empty_batch_writes_nothing_witness :
  (arq_yaml (Posicional.executar_atualizacao (rt:=runtime_decimal)
               mundo_sem_novos) = arq_yaml mundo_sem_novos ∧
   gravacoes (Posicional.executar_atualizacao (rt:=runtime_decimal)
                mundo_sem_novos) = []) ∧
  (arq_yaml (Titulos.executar_atualizacao (rt:=runtime_decimal)
               mundo_titulos_sem_novos) = arq_yaml mundo_titulos_sem_novos ∧
   gravacoes (Titulos.executar_atualizacao (rt:=runtime_decimal)
                mundo_titulos_sem_novos) = []).
Proof.
  destruct (empty_batch_writes_nothing (rt:=runtime_decimal)) as [Hp Ht].
  split; [apply Hp|apply Ht]; reflexivity.
Defined.

(** C7: in the title script a configured title that the sheet lacks ends
    the ingestion before any row is read: the titles that are missing are
    reported, no candidate is returned whatever the rows hold, and the
    destination is not written. *)
Theorem missing_columns_abort {rt : PyRuntime} (w : mundo Titulos.frame)
    df col :
  arq_excel w = Retorna df →
  col ∈ Titulos.values Titulos.mapa_de_colunas →
  col ∉ Titulos.columns df →
  let faltantes := Titulos.colunas_faltantes (Titulos.columns df) in
  Titulos._carregar_alarmes_excel w
    = (print (MsgColunasFaltantes faltantes) w, []) ∧
  col ∈ faltantes ∧
  (∀ c, c ∈ faltantes ↔
        c ∈ Titulos.values Titulos.mapa_de_colunas ∧ c ∉ Titulos.columns df) ∧
  arq_yaml (Titulos.executar_atualizacao w) = arq_yaml w ∧
  gravacoes (Titulos.executar_atualizacao w) = gravacoes w.
Proof.
  intros Hdf Hcol Hout faltantes.
  assert (∀ c, c ∈ faltantes ↔
    c ∈ Titulos.values Titulos.mapa_de_colunas ∧ c ∉ Titulos.columns df)
    as Hchar.
  { intros c. unfold faltantes, Titulos.colunas_faltantes.
    rewrite list_elem_of_filter. tauto. }
  assert (col ∈ faltantes) as Hin by by apply Hchar.
  assert (faltantes ≠ []) as Hne by (intros E; rewrite E in Hin; inversion Hin).
  pose proof (tit_excel_colunas w df Hdf Hne) as Hload.
  split; [done|]. split; [done|]. split; [done|].
  apply tit_sem_novos. unfold Titulos.novos. by rewrite Hload.
Qed.

(** C7, witness: the scenario of the specification, a sheet without the
    title ['ID do Alarme']. *)
Lemma missing_columns_abort_witness :
  Titulos._carregar_alarmes_excel (rt:=runtime_decimal) mundo_sem_id
    = (print (MsgColunasFaltantes ["ID do Alarme"%string]) mundo_sem_id, []) ∧
  arq_yaml (Titulos.executar_atualizacao (rt:=runtime_decimal) mundo_sem_id)
    = arq_yaml mundo_sem_id ∧
  gravacoes (Titulos.executar_atualizacao (rt:=runtime_decimal) mundo_sem_id)
    = [].
Proof.
  destruct (missing_columns_abort (rt:=runtime_decimal) mundo_sem_id
              quadro_sem_id "ID do Alarme" eq_refl)
    as (Hload & _ & _ & Hy & Hg); [compute_done..|].
  split; [exact Hload|]. split; [exact Hy|exact Hg].
Defined.

(** C8, as amended: a destination whose document is not a list is read as
    the empty collection and the run merges the candidates into the empty
    collection, in both scripts.  The positional script always prints that
    the file holds no valid list; the title script prints it when the
    document is true in Python's sense, and reads an empty document as a list
    without records. *)
Theorem non_list_yaml_resets {rt : PyRuntime} :
  (∀ (w : mundo Posicional.frame) d,
     arq_yaml w = Conteudo d → (∀ l, d ≠ YList l) →
     Posicional._carregar_alarmes_yaml w = (print MsgYamlNaoLista w, []) ∧
     (Posicional.novos w ≠ [] →
      persistido (Posicional.executar_atualizacao w)
        = Some (sorted alarm_id (processar ∅ (Posicional.novos w)).1))) ∧
  (∀ (w : mundo Titulos.frame) d,
     arq_yaml w = Conteudo d → (∀ l, d ≠ YList l) →
     Titulos.existentes w = [] ∧
     (truthy d = true →
      Titulos._carregar_alarmes_yaml w = (print MsgYamlNaoLista w, [])) ∧
     (d = YNull →
      Titulos._carregar_alarmes_yaml w
        = (print (MsgYamlEncontrados 0) w, [])) ∧
     (Titulos.novos w ≠ [] →
      persistido (Titulos.executar_atualizacao w)
        = Some (processar ∅ (Titulos.novos w)).1)).
Proof.
  split; intros w d Hd Hnl.
  - assert (Posicional._carregar_alarmes_yaml w = (print MsgYamlNaoLista w, []))
      as Hload.
    { unfold Posicional._carregar_alarmes_yaml. rewrite Hd.
      destruct d as [|l| |]; [done| |done..]. by destruct (Hnl l). }
    split; [done|]. intros HN. rewrite pos_persistido_executar.
    rewrite decide_False by done. unfold Posicional.lista_gravada.
    unfold Posicional.existentes. by rewrite Hload.
  - assert (Titulos.existentes w = []) as He.
    { unfold Titulos.existentes, Titulos._carregar_alarmes_yaml. rewrite Hd.
      destruct (truthy d); [|done].
      destruct d as [|l| |]; [done| |done..]. by destruct (Hnl l). }
    split; [done|]. split; [|split].
    + intros Ht. unfold Titulos._carregar_alarmes_yaml. rewrite Hd, Ht.
      destruct d as [|l| |]; [done| |done..]. by destruct (Hnl l).
    + intros ->. unfold Titulos._carregar_alarmes_yaml. by rewrite Hd.
    + intros HN. rewrite tit_persistido_executar.
      rewrite decide_False by done. unfold Titulos.lista_gravada.
      by rewrite He.
Qed.

(** C8, witness: destinations holding a mapping with two entries, read by
    each script, and one holding an empty document; the two candidates
    asking for [5] are written as [5; 6]. *)
Lemma non_list_yaml_resets_witness :
  (Posicional._carregar_alarmes_yaml mundo_yaml_mapa
     = (print MsgYamlNaoLista mundo_yaml_mapa, []) ∧
   ids <$> persistido (Posicional.executar_atualizacao (rt:=runtime_decimal)
                         mundo_yaml_mapa) = Some [5; 6]) ∧
  (Titulos._carregar_alarmes_yaml mundo_titulos_yaml_mapa
     = (print MsgYamlNaoLista mundo_titulos_yaml_mapa, []) ∧
   ids <$> persistido (Titulos.executar_atualizacao (rt:=runtime_decimal)
                         mundo_titulos_yaml_mapa) = Some [5; 6]) ∧
  (Titulos._carregar_alarmes_yaml mundo_titulos_yaml_vazio
     = (print (MsgYamlEncontrados 0) mundo_titulos_yaml_vazio, []) ∧
   ids <$> persistido (Titulos.executar_atualizacao (rt:=runtime_decimal)
                         mundo_titulos_yaml_vazio) = Some [5; 6]).
Proof.
  destruct (non_list_yaml_resets (rt:=runtime_decimal)) as [Hp Ht].
  split; [|split].
  - destruct (Hp mundo_yaml_mapa (YMapa 2) eq_refl) as [Hload Hrun]; [done|].
    split; [exact Hload|]. rewrite Hrun; [reflexivity|compute_done].
  - destruct (Ht mundo_titulos_yaml_mapa (YMapa 2) eq_refl)
      as (_ & Hload & _ & Hrun); [done|].
    split; [exact (Hload eq_refl)|].
    rewrite Hrun; [reflexivity|compute_done].
  - destruct (Ht mundo_titulos_yaml_vazio YNull eq_refl)
      as (_ & _ & Hload & Hrun); [done|].
    split; [exact (Hload eq_refl)|].
    rewrite Hrun; [reflexivity|compute_done].
Defined.

(** C8 as stated fails: the title script reads an empty document as a list
    without records.  It prints that it found 0 alarms, the run's console
    is the one of a destination holding the empty list, and the line about
    a file without a valid list is not on it. *)
Lemma non_list_yaml_resets_counterexample :
  arq_yaml mundo_titulos_yaml_vazio = Conteudo YNull ∧
  Titulos._carregar_alarmes_yaml mundo_titulos_yaml_vazio
    = (print (MsgYamlEncontrados 0) mundo_titulos_yaml_vazio, []) ∧
  console (Titulos.executar_atualizacao (rt:=runtime_decimal)
             mundo_titulos_yaml_vazio)
    = console (Titulos.executar_atualizacao (rt:=runtime_decimal)
                 mundo_titulos_lista_vazia) ∧
  MsgYamlNaoLista ∉ console (Titulos.executar_atualizacao
                               (rt:=runtime_decimal)
                               mundo_titulos_yaml_vazio).
Proof.
  split; [reflexivity|]. split; [reflexivity|].
  split; [vm_compute; reflexivity|]. vm_compute.
  intros H. repeat (apply elem_of_cons in H as [H|H]; [discriminate|]).
  by apply elem_of_nil in H.
Qed.

(** C9: the records written are the existing records, as they were,
    followed by the candidates with at most their alarm_id changed (in the
    positional script, those records in sorted order).  Both scripts. *)
Theorem merge_changes_only_ids {rt : PyRuntime} :
  (∀ w : mundo Posicional.frame,
     Posicional.novos w ≠ [] →
     ∃ processados out,
       Forall2 mesmo_resto (Posicional.novos w) processados ∧
       persistido (Posicional.executar_atualizacao w) = Some out ∧
       out ≡ₚ Posicional.existentes w ++ processados) ∧
  (∀ w : mundo Titulos.frame,
     Titulos.novos w ≠ [] →
     ∃ processados,
       Forall2 mesmo_resto (Titulos.novos w) processados ∧
       persistido (Titulos.executar_atualizacao w)
         = Some (Titulos.existentes w ++ processados)).
Proof.
  split; intros w HN.
  - eexists _, _. split; [apply processar_mesmo_resto|].
    rewrite pos_persistido_executar, decide_False by done.
    split; [done|]. apply sorted_perm.
  - eexists. split; [apply processar_mesmo_resto|].
    by rewrite tit_persistido_executar, decide_False.
Qed.

(** C9, witness: a run of each script with two candidates. *)
Lemma merge_changes_only_ids_witness :
  (∃ processados out,
     Forall2 mesmo_resto
       (Posicional.novos (rt:=runtime_decimal) mundo_cenario) processados ∧
     persistido (Posicional.executar_atualizacao (rt:=runtime_decimal)
                   mundo_cenario) = Some out ∧
     out ≡ₚ Posicional.existentes mundo_cenario ++ processados) ∧
  (∃ processados,
     Forall2 mesmo_resto
       (Titulos.novos (rt:=runtime_decimal) mundo_titulos) processados ∧
     persistido (Titulos.executar_atualizacao (rt:=runtime_decimal)
                   mundo_titulos)
       = Some (Titulos.existentes mundo_titulos ++ processados)).
Proof.
  destruct (merge_changes_only_ids (rt:=runtime_decimal)) as [Hp Ht].
  split; [apply Hp|apply Ht]; compute_done.
Defined.



(** * Further properties *)

(** ** More on the loop over the candidates *)

Lemma while_em_uso_bound fuel s k r :
  while_em_uso fuel s k = Some r → r < k + Z.of_nat fuel.
Proof.
  revert k. induction fuel as [|fuel IH]; intros k; simpl; [done|].
  case_decide; [|intros [= <-]; lia].
  intros Hr%IH. lia.
Qed.

Lemma proximo_livre_bound s k : proximo_livre s k ≤ k + Z.of_nat (size s).
Proof.
  pose proof (while_em_uso_bound _ _ _ _ (proximo_livre_eq s k)). lia.
Qed.

Lemma resolver_msgs s a :
  (resolver s a).2 =
  if decide (alarm_id a = alarm_id (resolver s a).1) then []
  else [MsgConflito (alarm_id a) (alarm_id (resolver s a).1)].
Proof.
  unfold resolver. case_decide as Hin; simpl.
  - rewrite decide_False; [done|].
    intros Heq.
    destruct (proximo_livre_spec s (alarm_id a)) as (_ & Hfree & _).
    by rewrite <-Heq in Hfree.
  - by rewrite decide_True.
Qed.

Lemma processar_cons_msgs s a l :
  (processar s (a :: l)).2 =
  (resolver s a).2 ++ (processar (s ∪ {[alarm_id (resolver s a).1]}) l).2.
Proof.
  simpl. destruct (resolver s a) as [a' m]. simpl.
  by destruct (processar _ l).
Qed.

Lemma processar_conflitos s l :
  (processar s l).2 = conflitos l (processar s l).1.
Proof.
  revert s. induction l as [|a l IH]; intros s; [done|].
  rewrite processar_cons_msgs, processar_cons, IH, resolver_msgs.
  unfold conflitos. simpl. by case_decide.
Qed.

Lemma resolver_ge s a : alarm_id a ≤ alarm_id (resolver s a).1.
Proof. rewrite resolver_id. apply proximo_livre_spec. Qed.

Lemma size_ids_de l : (size (ids_de l) ≤ length l)%nat.
Proof.
  unfold ids_de, ids. induction l as [|a l IH].
  - rewrite fmap_nil, list_to_set_nil, size_empty. done.
  - rewrite fmap_cons, list_to_set_cons. simpl length.
    rewrite size_union_alt, size_singleton, size_difference_alt. lia.
Qed.

Lemma processar_janela s l :
  Forall2 (λ c p, alarm_id c ≤ alarm_id p
                  < alarm_id c + Z.of_nat (size s) + Z.of_nat (length l))
          l (processar s l).1.
Proof.
  revert s. induction l as [|a l IH]; intros s; [constructor|].
  rewrite processar_cons. constructor.
  - split; [apply resolver_ge|]. rewrite resolver_id.
    pose proof (proximo_livre_bound s (alarm_id a)). simpl length. lia.
  - eapply Forall2_impl; [apply IH|]. intros c p [? Hlt]. split; [done|].
    assert (size (s ∪ {[alarm_id (resolver s a).1]}) ≤ S (size s))%nat.
    { rewrite size_union_alt, size_difference_alt, size_singleton. lia. }
    simpl length. lia.
Qed.

(** With every requested identifier in use, every candidate moves up. *)
Lemma processar_todos_em_uso s l :
  Forall (λ c, alarm_id c ∈ s) l →
  Forall2 (λ c p, alarm_id c < alarm_id p) l (processar s l).1.
Proof.
  revert s. induction l as [|a l IH]; intros s Hall; [constructor|].
  apply Forall_cons in Hall as [Ha Hl].
  rewrite processar_cons. constructor.
  - rewrite resolver_id.
    destruct (proximo_livre_spec s (alarm_id a)) as (Hle & Hfree & _).
    destruct (decide (proximo_livre s (alarm_id a) = alarm_id a)) as [E|]; [|lia].
    rewrite E in Hfree. done.
  - apply IH. eapply Forall_impl; [done|]. intros c Hc.
    apply elem_of_union. by left.
Qed.

(** After the loop every requested identifier is in use. *)
Lemma processar_pedidos_em_uso s l c :
  c ∈ l → alarm_id c ∈ s ∪ list_to_set (ids (processar s l).1).
Proof.
  revert s. induction l as [|a l IH]; intros s; [by intros ?%elem_of_nil|].
  rewrite processar_cons. unfold ids. rewrite fmap_cons.
  rewrite list_to_set_cons, (assoc_L (∪)).
  intros [->|Hc]%elem_of_cons.
  - apply elem_of_union. left. unfold resolver. case_decide; simpl.
    + apply elem_of_union. by left.
    + apply elem_of_union. right. by apply elem_of_singleton.
  - by apply (IH (s ∪ {[alarm_id (resolver s a).1]})) in Hc.
Qed.

(** A batch without conflicts goes through unchanged. *)
Lemma processar_sem_conflito s l :
  NoDup (ids l) → Forall (λ c, alarm_id c ∉ s) l →
  processar s l = (l, []).
Proof.
  revert s. induction l as [|a l IH]; intros s Hnd Hout; [done|].
  unfold ids in Hnd. rewrite fmap_cons in Hnd.
  apply NoDup_cons in Hnd as [Ha Hnd]. apply Forall_cons in Hout as [Has Hout].
  simpl. unfold resolver. rewrite decide_False by done. simpl.
  rewrite IH; [done|done|].
  apply Forall_forall. intros c Hc. rewrite Forall_forall in Hout.
  intros [?|Heq%elem_of_singleton]%elem_of_union; [by eapply Hout|].
  apply Ha. rewrite <-Heq. by apply list_elem_of_fmap_2.
Qed.

(** ** More on the value transform *)

(** ** White space *)

Lemma lstrip_espacos ws s : Forall (λ c, isspace c) ws → lstrip (ws ++ s) = lstrip s.
Proof.
  induction 1 as [|c ws Hc _ IH]; [done|]. simpl.
  by destruct (isspace c).
Qed.

Lemma lstrip_app s t :
  lstrip (s ++ t) = if decide (lstrip s = []) then lstrip t else lstrip s ++ t.
Proof.
  induction s as [|c s IH]; simpl; [done|].
  destruct (isspace c); [done|]. by rewrite decide_False.
Qed.

Lemma rstrip_espacos s ws : Forall (λ c, isspace c) ws → rstrip (s ++ ws) = rstrip s.
Proof.
  intros Hws. unfold rstrip. rewrite reverse_app, lstrip_espacos; [done|].
  by apply Forall_reverse.
Qed.

Lemma lstrip_so_espacos ws : Forall (λ c, isspace c) ws → lstrip ws = [].
Proof.
  intros Hws. rewrite <-(app_nil_r ws). by rewrite lstrip_espacos.
Qed.

(** [strip] does not see white space around the text. *)
Lemma strip_espacos ws1 s ws2 :
  Forall (λ c, isspace c) ws1 → Forall (λ c, isspace c) ws2 →
  strip (ws1 ++ s ++ ws2) = strip s.
Proof.
  intros H1 H2. unfold strip. rewrite lstrip_espacos by done.
  rewrite lstrip_app. case_decide as Hs.
  - by rewrite Hs, lstrip_so_espacos.
  - by rewrite rstrip_espacos.
Qed.

Section Transform.
Context {rt : PyRuntime}.

Lemma transformar_bool b : _transformar_valor_booleano (SBool b) = SBool b.
Proof. by destruct b. Qed.

Lemma transformar_casos v :
  (lower (strip (py_str v)) = tok_sim ∧ _transformar_valor_booleano v = SBool true) ∨
  (lower (strip (py_str v)) = tok_nao ∧ _transformar_valor_booleano v = SBool false) ∨
  (lower (strip (py_str v)) ≠ tok_sim ∧ lower (strip (py_str v)) ≠ tok_nao ∧
   _transformar_valor_booleano v = v).
Proof.
  unfold _transformar_valor_booleano.
  repeat case_decide; auto 10.
Qed.

(** X1: a value the transform returns is left as it is by the transform:
    applying it twice is applying it once. *)
Theorem transformar_idempotente v :
  _transformar_valor_booleano (_transformar_valor_booleano v)
  = _transformar_valor_booleano v.
Proof.
  destruct (transformar_casos v) as [[_ ->]|[[_ ->]|(_ & _ & E)]].
  - apply transformar_bool.
  - apply transformar_bool.
  - by rewrite !E.
Qed.

(** X2: white space around a text does not change what the transform makes
    of it: the same boolean when the text is a token, the padded text itself
    when it is not. *)
Theorem transformar_ignora_espacos ws1 s ws2 :
  Forall (λ c, isspace c) ws1 → Forall (λ c, isspace c) ws2 →
  (∀ b, _transformar_valor_booleano (SStr s) = SBool b →
        _transformar_valor_booleano (SStr (ws1 ++ s ++ ws2)) = SBool b) ∧
  (_transformar_valor_booleano (SStr s) = SStr s →
   _transformar_valor_booleano (SStr (ws1 ++ s ++ ws2))
     = SStr (ws1 ++ s ++ ws2)).
Proof.
  intros H1 H2. unfold _transformar_valor_booleano. simpl.
  rewrite strip_espacos by done.
  split; [intros b|]; repeat case_decide; done.
Qed.
End Transform.

(** X2, witness: [" \tSIM\n"] is read as [True]. *)
Lemma transformar_ignora_espacos_witness :
  _transformar_valor_booleano (rt:=runtime_decimal)
    (SStr ([32%N; 9%N] ++ lit "SIM" ++ [10%N])) = SBool true.
Proof.
  apply (transformar_ignora_espacos (rt:=runtime_decimal)
           [32%N; 9%N] (lit "SIM") [10%N]);
    [compute_done|compute_done|reflexivity].
Defined.

(** ** More on reading the sheet *)

Section ParaCada2.
Context {A B : Type} (f : A → exc B).

Lemma para_cada_Forall2 xs ys :
  para_cada f xs = Retorna ys ↔ Forall2 (λ x y, f x = Retorna y) xs ys.
Proof.
  revert ys. induction xs as [|x xs IH]; intros ys; simpl.
  - split; [intros [= <-]; constructor|by intros ->%Forall2_nil_inv_l].
  - split.
    + destruct (f x) as [y|e] eqn:Ef; simpl; [|done].
      destruct (para_cada f xs) as [ys'|e] eqn:Efs; simpl; [|done].
      intros [= <-]. constructor; [done|by apply IH].
    + intros (y & ys' & Hy & Hys & ->)%Forall2_cons_inv_l.
      apply IH in Hys. by rewrite Hy, Hys.
Qed.

Lemma para_cada_total xs :
  Forall (λ x, ∃ y, f x = Retorna y) xs → ∃ ys, para_cada f xs = Retorna ys.
Proof.
  induction 1 as [|x xs [y Hy] _ [ys Hys]]; simpl; [by eexists|].
  rewrite Hy, Hys. by eexists.
Qed.
End ParaCada2.

Section PosIngest.
Context {rt : PyRuntime}.
Import Posicional.

Lemma pos_alarm_data_le_linha row a :
  alarm_data row = Retorna a → pos_le_linha row a.
Proof.
  unfold alarm_data, celula, int_exc, pos_le_linha.
  destruct (row !! 3%nat); simpl; [|done].
  destruct (row !! 0%nat); simpl; [|done].
  destruct (py_int _); simpl; [|done].
  destruct (row !! 1%nat); simpl; [|done].
  destruct (row !! 2%nat); simpl; [|done].
  destruct (row !! 4%nat); simpl; [|done].
  destruct (row !! 5%nat); simpl; [|done].
  destruct (row !! 6%nat); simpl; [|done].
  destruct (row !! 7%nat); simpl; [|done].
  intros [= <-]. done.
Qed.

Lemma pos_alarm_data_curta row :
  (length row < 8)%nat → ∃ e, alarm_data row = Levanta e.
Proof.
  intros Hlen. unfold alarm_data, celula, int_exc.
  do 8 (destruct row as [|? row];
        [simpl; repeat (destruct (py_int _); simpl); by eexists|]).
  simpl in Hlen. lia.
Qed.

(** X3: on a sheet whose rows have eight cells or more and identifiers
    [int()] accepts, the positional script returns one candidate per row, in
    row order, built from the cells 0 to 7 of its row, and reports their
    number. *)
Theorem pos_ingestao_completa (w : mundo frame) df :
  arq_excel w = Retorna df →
  Forall (λ row, 8 ≤ length row)%nat df →
  Forall (λ row, id_malformado row = false) df →
  (_carregar_alarmes_excel w).1 = print (MsgExcelEncontrados (length df)) w ∧
  Forall2 pos_le_linha df (novos w).
Proof.
  intros Hdf Hlargo Hid.
  destruct (para_cada_total alarm_data df) as [ys Hys].
  { apply Forall_forall. intros row Hrow.
    rewrite Forall_forall in Hlargo, Hid.
    pose proof (pos_alarm_data_largo row (Hlargo _ Hrow)) as Hl.
    by rewrite (Hid _ Hrow) in Hl. }
  unfold novos, _carregar_alarmes_excel. rewrite Hdf. simpl.
  unfold iterrows. rewrite Hys. simpl.
  apply para_cada_Forall2 in Hys.
  split.
  - by rewrite <-(Forall2_length _ _ _ Hys).
  - eapply Forall2_impl; [done|]. apply pos_alarm_data_le_linha.
Qed.

(** X4: a row with fewer than eight cells makes the positional script
    return no candidate and write nothing. *)
Theorem pos_linha_curta_aborta (w : mundo frame) df :
  arq_excel w = Retorna df →
  Exists (λ row, length row < 8)%nat df →
  novos w = [] ∧
  arq_yaml (executar_atualizacao w) = arq_yaml w ∧
  gravacoes (executar_atualizacao w) = gravacoes w.
Proof.
  intros Hdf Hcurta.
  assert (novos w = []) as HN.
  { unfold novos, _carregar_alarmes_excel. rewrite Hdf. simpl. unfold iterrows.
    destruct (para_cada_aborta alarm_data df) as [e ->]; [|by destruct e].
    eapply Exists_impl; [done|]. apply pos_alarm_data_curta. }
  split; [done|]. by apply pos_sem_novos.
Qed.
End PosIngest.

(** X3, witness: the two rows of [mundo_cenario]. *)
Lemma pos_ingestao_completa_witness :
  (Posicional._carregar_alarmes_excel (rt:=runtime_decimal) mundo_cenario).1
    = print (MsgExcelEncontrados 2) mundo_cenario ∧
  Forall2 (pos_le_linha (rt:=runtime_decimal))
    [linha 5 "c"; linha 6 "d"]
    (Posicional.novos (rt:=runtime_decimal) mundo_cenario).
Proof.
  apply (pos_ingestao_completa (rt:=runtime_decimal) mundo_cenario
           [linha 5 "c"; linha 6 "d"]);
    [reflexivity|compute_done|compute_done].
Defined.

(** X4, witness: a sheet with three columns. *)
Lemma pos_linha_curta_aborta_witness :
  Posicional.novos (rt:=runtime_decimal) mundo_linha_curta = [] ∧
  arq_yaml (Posicional.executar_atualizacao (rt:=runtime_decimal)
              mundo_linha_curta) = arq_yaml mundo_linha_curta ∧
  gravacoes (Posicional.executar_atualizacao (rt:=runtime_decimal)
               mundo_linha_curta) = [].
Proof.
  apply (pos_linha_curta_aborta (rt:=runtime_decimal) mundo_linha_curta
           [[SInt 2; SStr (lit "b"); SStr (lit "texto")]]);
    [reflexivity|compute_done].
Defined.

Section TitIngest.
Context {rt : PyRuntime}.
Import Titulos.

Lemma campo_celula cols row col v :
  campo cols (fillna row) col = Retorna v → tit_celula cols row col = Some v.
Proof.
  unfold campo, tit_celula, fillna, pystr.
  destruct (list_find _ cols) as [[i c]|]; simpl; [|done].
  destruct ((default [] <$> row) !! i) as [v'|] eqn:E; [|done].
  intros [= <-]. by rewrite list_lookup_fmap in E.
Qed.

Lemma tit_alarm_data_le_linha cols row a :
  alarm_data cols (fillna row) = Retorna a → tit_le_linha cols row a.
Proof.
  unfold alarm_data, int_exc, tit_le_linha. simpl.
  repeat match goal with
  | |- context [campo cols (fillna row) ?c] =>
      let H := fresh "Hc" in
      destruct (campo cols (fillna row) c) eqn:H; simpl;
      [apply campo_celula in H; rewrite ?H; clear H; simpl|try done]
  | |- context [int_of_str ?s] =>
      destruct (int_of_str s); simpl; try done
  end.
  all: try done.
  intros [= <-]. done.
Qed.

Lemma tit_alarm_data_bem_formada cols row :
  colunas_faltantes cols = [] → length row = length cols →
  id_malformado cols row = false →
  ∃ a, alarm_data cols (fillna row) = Retorna a.
Proof.
  intros Hcols Hlen Hid. unfold id_malformado in Hid.
  unfold alarm_data, int_exc. simpl in *.
  assert (length (fillna row) = length cols) as Hlen'.
  { unfold fillna. by rewrite length_fmap. }
  repeat match goal with
  | |- context [campo cols (fillna row) ?c] =>
      let v := fresh "v" in let Hv := fresh "Hv" in
      destruct (campo_presente cols (fillna row) c) as [v Hv];
      [apply colunas_presentes; [done|compute_done]|done|];
      rewrite Hv in *; clear Hv; simpl in *
  end.
  destruct (int_of_str _); simpl; [by eexists|done].
Qed.

(** X5: on a sheet with every configured title, full rows and identifiers
    [int()] accepts, the title script returns one candidate per row, in row
    order, built from the cells under the configured titles (blank cells
    read as empty text), and reports their number. *)
Theorem tit_ingestao_completa (w : mundo frame) df :
  arq_excel w = Retorna df →
  colunas_faltantes (columns df) = [] →
  Forall (λ row, length row = length (columns df)) (rows df) →
  Forall (λ row, id_malformado (columns df) row = false) (rows df) →
  (_carregar_alarmes_excel w).1
    = print (MsgExcelEncontrados (length (rows df))) w ∧
  Forall2 (tit_le_linha (columns df)) (rows df) (novos w).
Proof.
  intros Hdf Hcols Hlen Hid.
  destruct (para_cada_total (alarm_data (columns df)) (fillna <$> rows df))
    as [ys Hys].
  { apply Forall_fmap, Forall_forall. intros row Hrow. simpl.
    rewrite Forall_forall in Hlen, Hid.
    apply tit_alarm_data_bem_formada; auto. }
  unfold novos, _carregar_alarmes_excel, ingerir. rewrite Hdf.
  rewrite decide_True by done. unfold iterrows. rewrite Hys. simpl.
  apply para_cada_Forall2 in Hys. apply Forall2_fmap_l in Hys.
  split.
  - unfold prints, print. by rewrite <-(Forall2_length _ _ _ Hys).
  - eapply Forall2_impl; [done|]. simpl. apply tit_alarm_data_le_linha.
Qed.
End TitIngest.

(** X5, witness: the two rows of [quadro_titulos], one with a blank cell. *)
Lemma tit_ingestao_completa_witness :
  (Titulos._carregar_alarmes_excel (rt:=runtime_decimal) mundo_titulos).1
    = print (MsgExcelEncontrados 2) mundo_titulos ∧
  Forall2 (tit_le_linha (rt:=runtime_decimal)
             (Titulos.columns quadro_titulos))
    (Titulos.rows quadro_titulos)
    (Titulos.novos (rt:=runtime_decimal) mundo_titulos).
Proof.
  apply (tit_ingestao_completa (rt:=runtime_decimal) mundo_titulos
           quadro_titulos);
    [reflexivity|compute_done|compute_done|compute_done].
Defined.

(** ** More on what a run leaves behind *)

Lemma ids_de_perm l1 l2 : l1 ≡ₚ l2 → ids_de l1 = ids_de l2.
Proof.
  intros Hp. unfold ids_de, ids. apply list_to_set_perm_L. by rewrite Hp.
Qed.

Lemma ids_de_app l1 l2 : ids_de (l1 ++ l2) = ids_de l1 ∪ list_to_set (ids l2).
Proof. unfold ids_de. by rewrite ids_app, list_to_set_app_L. Qed.

(** After a merge every requested identifier is in use, so the same batch
    merged again moves every candidate up. *)
Lemma processar_de_novo E N :
  Forall2 (λ c p, alarm_id c < alarm_id p) N
    (processar (ids_de (E ++ (processar (ids_de E) N).1)) N).1.
Proof.
  apply processar_todos_em_uso, Forall_forall. intros c Hc.
  rewrite ids_de_app. by apply processar_pedidos_em_uso.
Qed.

Lemma Sorted_le_lt (l : list Z) : Sorted Z.le l → NoDup l → Sorted Z.lt l.
Proof.
  induction 1 as [|x l Hl IH Hhd]; intros Hnd; [constructor|].
  apply NoDup_cons in Hnd as [Hx Hnd]. constructor; [by apply IH|].
  destruct Hhd as [|y l' Hxy]; constructor.
  destruct (decide (x = y)) as [->|]; [|lia]. destruct Hx. by left.
Qed.

Lemma Sorted_ids (l : list alarm) :
  Sorted (λ a b, alarm_id a ≤ alarm_id b) l → Sorted Z.le (ids l).
Proof.
  induction 1 as [|x l Hl IH Hhd]; [constructor|].
  unfold ids. rewrite fmap_cons. constructor; [done|].
  destruct Hhd; by constructor.
Qed.

Section PosRuns.
Context {rt : PyRuntime}.
Import Posicional.
Implicit Types w : mundo frame.

Lemma pos_yaml_console w :
  ∃ m, console (_carregar_alarmes_yaml w).1 = console w ++ [m].
Proof.
  unfold _carregar_alarmes_yaml.
  destruct (arq_yaml w) as [| |[]]; simpl; by eexists.
Qed.

Lemma pos_excel_console w :
  ∃ m, console (_carregar_alarmes_excel w).1 = console w ++ [m].
Proof.
  unfold _carregar_alarmes_excel.
  destruct (arq_excel w ≫= iterrows) as [?|[]]; simpl; by eexists.
Qed.

Lemma pos_excel_inalterado w :
  arq_excel (executar_atualizacao w) = arq_excel w.
Proof.
  unfold executar_atualizacao.
  destruct (pos_yaml_frame w) as (_ & He & _).
  destruct (_carregar_alarmes_yaml w) as [w1 E]. simpl in *.
  assert (arq_excel (_carregar_alarmes_excel w1).1 = arq_excel w1) as He'.
  { unfold _carregar_alarmes_excel.
    destruct (arq_excel w1 ≫= iterrows) as [?|[]]; done. }
  destruct (_carregar_alarmes_excel w1) as [w2 N]. simpl in *.
  destruct N as [|c N]; [simpl; congruence|].
  destruct (processar (ids_de E) (c :: N)) as [P msgs]. simpl. congruence.
Qed.

Lemma pos_console w :
  ∃ my me,
    console (executar_atualizacao w) =
    console w ++ [my; me] ++
    (if decide (novos w = []) then [MsgNenhumNovo]
     else conflitos (novos w) (processar (ids_de (existentes w)) (novos w)).1
          ++ [MsgSalvo (length (existentes w) + length (novos w))]).
Proof.
  unfold executar_atualizacao, novos, existentes.
  destruct (pos_yaml_frame w) as (_ & He & _).
  destruct (pos_yaml_console w) as [my Hmy]. exists my.
  pose proof (pos_excel_ext w _ He) as Hn.
  destruct (_carregar_alarmes_yaml w) as [w1 E]. simpl in *.
  destruct (pos_excel_console w1) as [me Hme]. exists me.
  destruct (_carregar_alarmes_excel w1) as [w2 N]. simpl in *. subst N.
  rewrite Hmy in Hme.
  destruct (_carregar_alarmes_excel w).2 as [|c N] eqn:EN.
  - rewrite decide_True by done. simpl. rewrite Hme.
    by rewrite <-!app_assoc.
  - rewrite decide_False by done.
    pose proof (processar_conflitos (ids_de E) (c :: N)) as Hc.
    pose proof (processar_length (ids_de E) (c :: N)) as Hl.
    destruct (processar (ids_de E) (c :: N)) as [P msgs]. simpl in *.
    rewrite Hme, Hc, sorted_length, length_app, Hl. simpl.
    by rewrite <-!app_assoc.
Qed.
End PosRuns.

Section TitRuns.
Context {rt : PyRuntime}.
Import Titulos.
Implicit Types w : mundo frame.

Lemma tit_yaml_console w :
  ∃ m, console (_carregar_alarmes_yaml w).1 = console w ++ [m].
Proof.
  unfold _carregar_alarmes_yaml.
  destruct (arq_yaml w) as [| |d]; simpl; [by eexists..|].
  destruct (truthy d); [destruct d|]; simpl; by eexists.
Qed.

Lemma tit_excel_console w :
  ∃ m, console (_carregar_alarmes_excel w).1 = console w ++ [m].
Proof.
  unfold _carregar_alarmes_excel, ingerir.
  destruct (arq_excel w) as [df|[]]; [|by eexists..].
  case_decide; [|by eexists].
  destruct (iterrows _ _) as [?|[]]; by eexists.
Qed.

Lemma tit_excel_inalterado w :
  arq_excel (executar_atualizacao w) = arq_excel w.
Proof.
  unfold executar_atualizacao.
  destruct (tit_yaml_frame w) as (_ & He & _).
  destruct (_carregar_alarmes_yaml w) as [w1 E]. simpl in *.
  assert (arq_excel (_carregar_alarmes_excel w1).1 = arq_excel w1) as He'.
  { unfold _carregar_alarmes_excel.
    destruct (arq_excel w1) as [df|[]] eqn:Hx; [|done..].
    destruct (ingerir df) as [? [?|[]]]; done. }
  destruct (_carregar_alarmes_excel w1) as [w2 N]. simpl in *.
  destruct N as [|c N]; [simpl; congruence|].
  destruct (processar (ids_de E) (c :: N)) as [P msgs]. simpl. congruence.
Qed.

Lemma tit_console w :
  ∃ my me,
    console (executar_atualizacao w) =
    console w ++ [my; me] ++
    (if decide (novos w = []) then [MsgNenhumNovo]
     else conflitos (novos w) (processar (ids_de (existentes w)) (novos w)).1
          ++ [MsgSalvo (length (existentes w) + length (novos w))]).
Proof.
  unfold executar_atualizacao, novos, existentes.
  destruct (tit_yaml_frame w) as (_ & He & _).
  destruct (tit_yaml_console w) as [my Hmy]. exists my.
  pose proof (tit_excel_ext w _ He) as Hn.
  destruct (_carregar_alarmes_yaml w) as [w1 E]. simpl in *.
  destruct (tit_excel_console w1) as [me Hme]. exists me.
  destruct (_carregar_alarmes_excel w1) as [w2 N]. simpl in *. subst N.
  rewrite Hmy in Hme.
  destruct (_carregar_alarmes_excel w).2 as [|c N] eqn:EN.
  - rewrite decide_True by done. simpl. rewrite Hme.
    by rewrite <-!app_assoc.
  - rewrite decide_False by done.
    pose proof (processar_conflitos (ids_de E) (c :: N)) as Hc.
    pose proof (processar_length (ids_de E) (c :: N)) as Hl.
    destruct (processar (ids_de E) (c :: N)) as [P msgs]. simpl in *.
    rewrite Hme, Hc, length_app, Hl. simpl.
    by rewrite <-!app_assoc.
Qed.
End TitRuns.

(** ** Columns found by title *)

Section ParaCada3.
Context {A A' B : Type} (f : A → exc B) (g : A' → exc B).

Lemma para_cada_ext xs xs' :
  Forall2 (λ x x', f x = g x') xs xs' → para_cada f xs = para_cada g xs'.
Proof.
  induction 1 as [|x x' xs xs' Hx _ IH]; simpl; [done|]. by rewrite Hx, IH.
Qed.
End ParaCada3.

Section TitCols.
Context {rt : PyRuntime}.
Import Titulos.

Lemma campo_entre pre cols pos rpre row rpos col :
  col ∈ cols → col ∉ pre →
  length rpre = length pre → length row = length cols →
  campo (pre ++ cols ++ pos) (rpre ++ row ++ rpos) col = campo cols row col.
Proof.
  intros Hin Hout Hpre Hlen. unfold campo.
  destruct (list_find_elem_of (λ c, c = col) cols col Hin eq_refl)
    as [[i c] Hfind].
  rewrite list_find_app_r.
  2:{ apply list_find_None, Forall_forall. by intros x Hx ->. }
  rewrite (list_find_app_l _ _ _ _ _ Hfind), Hfind. simpl.
  apply list_find_Some in Hfind as (Hi & _). apply lookup_lt_Some in Hi.
  rewrite lookup_app_r by lia.
  replace (i + length pre - length rpre)%nat with i by lia.
  by rewrite lookup_app_l by lia.
Qed.

Lemma colunas_faltantes_nil cols :
  colunas_faltantes cols = [] ↔
  Forall (λ col, col ∈ cols) (values mapa_de_colunas).
Proof.
  unfold colunas_faltantes. generalize (values mapa_de_colunas). intros l.
  induction l as [|x l IH]; [by rewrite filter_nil|].
  rewrite Forall_cons. destruct (decide (x ∈ cols)) as [Hx|Hx].
  - rewrite filter_cons_False by auto. tauto.
  - rewrite filter_cons_True by done. split; [done|]. by intros [? _].
Qed.

Lemma alarm_data_entre pre cols pos row row' :
  colunas_faltantes cols = [] →
  Forall (λ col, col ∉ pre) (values mapa_de_colunas) →
  length row = length cols → entre (length pre) row row' →
  alarm_data (pre ++ cols ++ pos) (fillna row') = alarm_data cols (fillna row).
Proof.
  intros Hcols Hpre Hlen (antes & depois & -> & Hantes).
  unfold fillna. rewrite !fmap_app. unfold alarm_data.
  apply colunas_faltantes_nil in Hcols.
  rewrite Forall_forall in Hcols, Hpre.
  assert (∀ col, col ∈ values mapa_de_colunas →
    campo (pre ++ cols ++ pos)
      ((default [] <$> antes) ++ (default [] <$> row) ++ (default [] <$> depois)) col
    = campo cols (default [] <$> row) col) as Hcampo.
  { intros col Hcol. apply campo_entre; auto; by rewrite length_fmap. }
  rewrite !Hcampo by compute_done. done.
Qed.
End TitCols.

Section Helpers.
Context {rt : PyRuntime}.

Lemma pos_existentes_def (w : mundo Posicional.frame) :
  Posicional.existentes w = default [] (persistido w).
Proof.
  unfold Posicional.existentes, Posicional._carregar_alarmes_yaml, persistido.
  by destruct (arq_yaml w) as [| |[]].
Qed.

Lemma tit_existentes_def (w : mundo Titulos.frame) :
  Titulos.existentes w = default [] (persistido w).
Proof.
  unfold Titulos.existentes, Titulos._carregar_alarmes_yaml, persistido.
  destruct (arq_yaml w) as [| |d]; [done..|].
  destruct (truthy d) eqn:Hd; [by destruct d|].
  destruct d as [|l| |]; try done. by destruct l.
Qed.

Lemma pos_novos_ext (w w' : mundo Posicional.frame) :
  arq_excel w' = arq_excel w → Posicional.novos w' = Posicional.novos w.
Proof. apply pos_excel_ext. Qed.

Lemma tit_novos_ext (w w' : mundo Titulos.frame) :
  arq_excel w' = arq_excel w → Titulos.novos w' = Titulos.novos w.
Proof. apply tit_excel_ext. Qed.
End Helpers.

(** ** Further properties of the runs *)

(** X6: when [read_excel] raises, no candidate is returned, a missing file
    is reported apart from the other errors (and, in the title script, a
    [ValueError] apart too), and nothing is written.  Both scripts. *)
Theorem fonte_ilegivel {rt : PyRuntime} :
  (∀ (w : mundo Posicional.frame) e,
     arq_excel w = Levanta e →
     Posicional._carregar_alarmes_excel w
       = (print (match e with
                 | FileNotFoundError => MsgExcelNaoEncontrado
                 | _ => MsgExcelErro e
                 end) w, []) ∧
     arq_yaml (Posicional.executar_atualizacao w) = arq_yaml w ∧
     gravacoes (Posicional.executar_atualizacao w) = gravacoes w) ∧
  (∀ (w : mundo Titulos.frame) e,
     arq_excel w = Levanta e →
     Titulos._carregar_alarmes_excel w
       = (print (match e with
                 | FileNotFoundError => MsgExcelNaoEncontrado
                 | ValueError => MsgExcelErroValor
                 | _ => MsgExcelErro e
                 end) w, []) ∧
     arq_yaml (Titulos.executar_atualizacao w) = arq_yaml w ∧
     gravacoes (Titulos.executar_atualizacao w) = gravacoes w).
Proof.
  split; intros w e He.
  - assert (Posicional._carregar_alarmes_excel w
      = (print (match e with
                | FileNotFoundError => MsgExcelNaoEncontrado
                | _ => MsgExcelErro e
                end) w, [])) as Hload.
    { unfold Posicional._carregar_alarmes_excel. rewrite He. by destruct e. }
    split; [done|]. apply pos_sem_novos. unfold Posicional.novos.
    by rewrite Hload.
  - assert (Titulos._carregar_alarmes_excel w
      = (print (match e with
                | FileNotFoundError => MsgExcelNaoEncontrado
                | ValueError => MsgExcelErroValor
                | _ => MsgExcelErro e
                end) w, [])) as Hload.
    { unfold Titulos._carregar_alarmes_excel. rewrite He. by destruct e. }
    split; [done|]. apply tit_sem_novos. unfold Titulos.novos.
    by rewrite Hload.
Qed.

(** X6, witness: a missing sheet, and a sheet [read_excel] refuses. *)
Lemma fonte_ilegivel_witness :
  (Posicional._carregar_alarmes_excel (rt:=runtime_decimal) mundo_sem_planilha
     = (print MsgExcelNaoEncontrado mundo_sem_planilha, []) ∧
   gravacoes (Posicional.executar_atualizacao (rt:=runtime_decimal)
                mundo_sem_planilha) = []) ∧
  (Titulos._carregar_alarmes_excel (rt:=runtime_decimal)
     mundo_titulos_sem_planilha
     = (print MsgExcelErroValor mundo_titulos_sem_planilha, []) ∧
   gravacoes (Titulos.executar_atualizacao (rt:=runtime_decimal)
                mundo_titulos_sem_planilha) = []).
Proof.
  destruct (fonte_ilegivel (rt:=runtime_decimal)) as [Hp Ht]. split.
  - destruct (Hp mundo_sem_planilha FileNotFoundError eq_refl)
      as (Hload & _ & Hg).
    split; [exact Hload|exact Hg].
  - destruct (Ht mundo_titulos_sem_planilha ValueError eq_refl)
      as (Hload & _ & Hg).
    split; [exact Hload|exact Hg].
Defined.

(** X7: what a run prints: one line for each of the two loads, then either
    the line saying nothing was added, or one conflict line for every
    candidate whose identifier was changed, in batch order, and the line
    with the number of records saved, existing plus new.  Both scripts. *)
Theorem relatorio_da_execucao {rt : PyRuntime} :
  (∀ w : mundo Posicional.frame,
     ∃ my me,
       console (Posicional.executar_atualizacao w) =
       console w ++ [my; me] ++
       (if decide (Posicional.novos w = []) then [MsgNenhumNovo]
        else conflitos (Posicional.novos w)
               (processar (ids_de (Posicional.existentes w))
                  (Posicional.novos w)).1
             ++ [MsgSalvo (length (Posicional.existentes w)
                           + length (Posicional.novos w))])) ∧
  (∀ w : mundo Titulos.frame,
     ∃ my me,
       console (Titulos.executar_atualizacao w) =
       console w ++ [my; me] ++
       (if decide (Titulos.novos w = []) then [MsgNenhumNovo]
        else conflitos (Titulos.novos w)
               (processar (ids_de (Titulos.existentes w))
                  (Titulos.novos w)).1
             ++ [MsgSalvo (length (Titulos.existentes w)
                           + length (Titulos.novos w))])).
Proof. split; intros w; [apply pos_console|apply tit_console]. Qed.

(** X8: a batch whose identifiers are pairwise distinct and not among the
    existing ones goes through unchanged: the existing records followed by
    the candidates as ingested are written (sorted in the positional
    script) and no conflict is printed.  Both scripts. *)
Theorem lote_sem_conflito {rt : PyRuntime} :
  (∀ w : mundo Posicional.frame,
     Posicional.novos w ≠ [] →
     NoDup (ids (Posicional.novos w)) →
     Forall (λ c, alarm_id c ∉ ids (Posicional.existentes w))
            (Posicional.novos w) →
     persistido (Posicional.executar_atualizacao w)
       = Some (sorted alarm_id
                 (Posicional.existentes w ++ Posicional.novos w)) ∧
     ∃ my me,
       console (Posicional.executar_atualizacao w)
       = console w ++ [my; me;
                       MsgSalvo (length (Posicional.existentes w)
                                 + length (Posicional.novos w))]) ∧
  (∀ w : mundo Titulos.frame,
     Titulos.novos w ≠ [] →
     NoDup (ids (Titulos.novos w)) →
     Forall (λ c, alarm_id c ∉ ids (Titulos.existentes w))
            (Titulos.novos w) →
     persistido (Titulos.executar_atualizacao w)
       = Some (Titulos.existentes w ++ Titulos.novos w) ∧
     ∃ my me,
       console (Titulos.executar_atualizacao w)
       = console w ++ [my; me;
                       MsgSalvo (length (Titulos.existentes w)
                                 + length (Titulos.novos w))]).
Proof.
  split; intros w HN Hnd Hout.
  - assert (processar (ids_de (Posicional.existentes w)) (Posicional.novos w)
            = (Posicional.novos w, [])) as Hp.
    { apply processar_sem_conflito; [done|].
      eapply Forall_impl; [done|]. intros c Hc. by rewrite elem_of_ids_de. }
    split.
    + rewrite pos_persistido_executar, decide_False by done.
      unfold Posicional.lista_gravada. by rewrite Hp.
    + destruct (pos_console w) as (my & me & Hc). exists my, me.
      rewrite Hc, decide_False by done.
      pose proof (processar_conflitos (ids_de (Posicional.existentes w))
                    (Posicional.novos w)) as Hcf.
      rewrite Hp in Hcf. simpl in Hcf. rewrite Hp. simpl.
      by rewrite <-Hcf.
  - assert (processar (ids_de (Titulos.existentes w)) (Titulos.novos w)
            = (Titulos.novos w, [])) as Hp.
    { apply processar_sem_conflito; [done|].
      eapply Forall_impl; [done|]. intros c Hc. by rewrite elem_of_ids_de. }
    split.
    + rewrite tit_persistido_executar, decide_False by done.
      unfold Titulos.lista_gravada. by rewrite Hp.
    + destruct (tit_console w) as (my & me & Hc). exists my, me.
      rewrite Hc, decide_False by done.
      pose proof (processar_conflitos (ids_de (Titulos.existentes w))
                    (Titulos.novos w)) as Hcf.
      rewrite Hp in Hcf. simpl in Hcf. rewrite Hp. simpl.
      by rewrite <-Hcf.
Qed.

(** X8, witness: a new row [7] beside [5; 1], and rows [5; 6] into an
    empty destination. *)
Lemma lote_sem_conflito_witness :
  ids <$> persistido (Posicional.executar_atualizacao (rt:=runtime_decimal)
                        mundo_desordenado) = Some [1; 5; 7] ∧
  ids <$> persistido (Titulos.executar_atualizacao (rt:=runtime_decimal)
                        mundo_titulos_yaml_vazio) = Some [5; 6].
Proof.
  destruct (lote_sem_conflito (rt:=runtime_decimal)) as [Hp Ht]. split.
  - destruct (Hp mundo_desordenado) as [-> _]; [compute_done..|reflexivity].
  - destruct (Ht mundo_titulos_yaml_vazio) as [-> _];
      [compute_done..|reflexivity].
Defined.

(** X9: what the positional script writes is ascending by alarm_id, and
    strictly ascending when the existing identifiers are pairwise
    distinct. *)
Theorem pos_grava_em_ordem {rt : PyRuntime} (w : mundo Posicional.frame) :
  Posicional.novos w ≠ [] →
  ∃ out,
    persistido (Posicional.executar_atualizacao w) = Some out ∧
    Sorted Z.le (ids out) ∧
    (NoDup (ids (Posicional.existentes w)) → Sorted Z.lt (ids out)).
Proof.
  intros HN. exists (Posicional.lista_gravada w).
  rewrite pos_persistido_executar, decide_False by done.
  split; [done|].
  assert (Sorted Z.le (ids (Posicional.lista_gravada w))) as Hs.
  { apply Sorted_ids, pos_lista_gravada_Sorted. }
  split; [done|]. intros Hnd. apply Sorted_le_lt; [done|].
  by apply pos_lista_gravada_NoDup.
Qed.

(** X9, witness: existing [5; 1] and a new row [7]. *)
Lemma pos_grava_em_ordem_witness :
  ∃ out,
    persistido (Posicional.executar_atualizacao (rt:=runtime_decimal)
                  mundo_desordenado) = Some out ∧
    Sorted Z.lt (ids out).
Proof.
  destruct (pos_grava_em_ordem (rt:=runtime_decimal) mundo_desordenado)
    as (out & Hout & _ & Hlt); [compute_done|].
  exists out. split; [exact Hout|]. apply Hlt. compute_done.
Defined.

(** X10: the two scripts differ in the order of what they write only: on
    the same destination and the same candidates the positional script
    writes the list of the title script, sorted by alarm_id. *)
Theorem scripts_diferem_pela_ordem {rt : PyRuntime}
    (wp : mundo Posicional.frame) (wt : mundo Titulos.frame) :
  arq_yaml wp = arq_yaml wt →
  Posicional.novos wp = Titulos.novos wt →
  Titulos.novos wt ≠ [] →
  ∃ out,
    persistido (Titulos.executar_atualizacao wt) = Some out ∧
    persistido (Posicional.executar_atualizacao wp)
      = Some (sorted alarm_id out).
Proof.
  intros Hy Hn HN. exists (Titulos.lista_gravada wt).
  rewrite tit_persistido_executar, pos_persistido_executar.
  rewrite !decide_False by congruence. split; [done|].
  unfold Posicional.lista_gravada, Titulos.lista_gravada.
  rewrite Hn, pos_existentes_def, tit_existentes_def.
  unfold persistido. by rewrite Hy.
Qed.

(** X10, witness: the scenario read by position and by title. *)
Lemma scripts_diferem_pela_ordem_witness :
  ∃ out,
    persistido (Titulos.executar_atualizacao (rt:=runtime_decimal)
                  mundo_titulos_cenario) = Some out ∧
    persistido (Posicional.executar_atualizacao (rt:=runtime_decimal)
                  mundo_cenario) = Some (sorted alarm_id out).
Proof.
  apply (scripts_diferem_pela_ordem (rt:=runtime_decimal));
    [reflexivity|compute_done|compute_done].
Defined.

(** X11: a second run that finds in the destination the list the first run
    wrote, and reads the same candidates, keeps that list and adds every
    candidate once more, each under an identifier strictly above the one it
    asks for and with its other fields as ingested.  Both scripts. *)
Theorem segunda_execucao {rt : PyRuntime} :
  (∀ w w2 : mundo Posicional.frame,
     Posicional.novos w ≠ [] →
     persistido w2 = persistido (Posicional.executar_atualizacao w) →
     Posicional.novos w2 = Posicional.novos w →
     ∃ out1 P2,
       persistido (Posicional.executar_atualizacao w) = Some out1 ∧
       persistido (Posicional.executar_atualizacao w2)
         = Some (sorted alarm_id (out1 ++ P2)) ∧
       Forall2 (λ c p, alarm_id c < alarm_id p ∧ mesmo_resto c p)
               (Posicional.novos w) P2) ∧
  (∀ w w2 : mundo Titulos.frame,
     Titulos.novos w ≠ [] →
     persistido w2 = persistido (Titulos.executar_atualizacao w) →
     Titulos.novos w2 = Titulos.novos w →
     ∃ out1 P2,
       persistido (Titulos.executar_atualizacao w) = Some out1 ∧
       persistido (Titulos.executar_atualizacao w2) = Some (out1 ++ P2) ∧
       Forall2 (λ c p, alarm_id c < alarm_id p ∧ mesmo_resto c p)
               (Titulos.novos w) P2).
Proof.
  split; intros w w2 HN Hp2 Hn2.
  - assert (persistido w2 = Some (Posicional.lista_gravada w)) as Hp1.
    { by rewrite Hp2, pos_persistido_executar, decide_False. }
    assert (Posicional.existentes w2 = Posicional.lista_gravada w) as He2.
    { by apply pos_existentes_persistido. }
    eexists _, _. split.
    { by rewrite pos_persistido_executar, decide_False. }
    split.
    + rewrite pos_persistido_executar, decide_False by congruence.
      unfold Posicional.lista_gravada at 1. by rewrite He2, Hn2.
    + unfold Posicional.lista_gravada.
      rewrite (ids_de_perm _ _ (sorted_perm alarm_id _)).
      apply Forall2_same_length_lookup_2.
      { by rewrite processar_length. }
      intros i c p Hc Hp. split.
      * eapply (Forall2_lookup_lr _ _ _ _ _ _ (processar_de_novo _ _)); done.
      * eapply (Forall2_lookup_lr _ _ _ _ _ _ (processar_mesmo_resto _ _));
          done.
  - assert (persistido w2 = Some (Titulos.lista_gravada w)) as Hp1.
    { by rewrite Hp2, tit_persistido_executar, decide_False. }
    assert (Titulos.existentes w2 = Titulos.lista_gravada w) as He2.
    { by apply tit_existentes_persistido. }
    eexists _, _. split.
    { by rewrite tit_persistido_executar, decide_False. }
    split.
    + rewrite tit_persistido_executar, decide_False by congruence.
      unfold Titulos.lista_gravada at 1. by rewrite He2, Hn2.
    + unfold Titulos.lista_gravada.
      apply Forall2_same_length_lookup_2.
      { by rewrite processar_length. }
      intros i c p Hc Hp. split.
      * eapply (Forall2_lookup_lr _ _ _ _ _ _ (processar_de_novo _ _)); done.
      * eapply (Forall2_lookup_lr _ _ _ _ _ _ (processar_mesmo_resto _ _));
          done.
Qed.

(** X11, witness: the scenario, and then the same sheet with the
    destination holding the four records the first run wrote. *)
Lemma segunda_execucao_witness :
  (∃ out1 P2,
     persistido (Posicional.executar_atualizacao (rt:=runtime_decimal)
                   mundo_cenario) = Some out1 ∧
     persistido (Posicional.executar_atualizacao (rt:=runtime_decimal)
                   mundo_cenario_depois)
       = Some (sorted alarm_id (out1 ++ P2)) ∧
     Forall2 (λ c p, alarm_id c < alarm_id p ∧ mesmo_resto c p)
             (Posicional.novos (rt:=runtime_decimal) mundo_cenario) P2) ∧
  (∃ out1 P2,
     persistido (Titulos.executar_atualizacao (rt:=runtime_decimal)
                   mundo_titulos_cenario) = Some out1 ∧
     persistido (Titulos.executar_atualizacao (rt:=runtime_decimal)
                   mundo_titulos_cenario_depois)
       = Some (out1 ++ P2) ∧
     Forall2 (λ c p, alarm_id c < alarm_id p ∧ mesmo_resto c p)
             (Titulos.novos (rt:=runtime_decimal) mundo_titulos_cenario) P2).
Proof.
  destruct (segunda_execucao (rt:=runtime_decimal)) as [Hp Ht]. split.
  - apply (Hp mundo_cenario mundo_cenario_depois); compute_done.
  - apply (Ht mundo_titulos_cenario mundo_titulos_cenario_depois);
      compute_done.
Defined.

(** The second run of the scenario: [5; 6], written as [6; 7] by the first
    run, are added again as [8; 9]. *)
Example cenario_duas_vezes :
  ids <$> persistido (Posicional.executar_atualizacao (rt:=runtime_decimal)
                        mundo_cenario_depois) = Some [1; 5; 6; 7; 8; 9].
Proof. vm_compute. reflexivity. Qed.

(** X12: the loader returns the list the destination holds, and the empty
    list in every other case (no file, a file that does not parse, a
    document that is not a list); it leaves the file as it is and writes
    nothing.  Both scripts, which return the same list. *)
Theorem carregar_yaml_lista {rt : PyRuntime} :
  (∀ w : mundo Posicional.frame,
     Posicional.existentes w = default [] (persistido w) ∧
     arq_yaml (Posicional._carregar_alarmes_yaml w).1 = arq_yaml w ∧
     gravacoes (Posicional._carregar_alarmes_yaml w).1 = gravacoes w) ∧
  (∀ w : mundo Titulos.frame,
     Titulos.existentes w = default [] (persistido w) ∧
     arq_yaml (Titulos._carregar_alarmes_yaml w).1 = arq_yaml w ∧
     gravacoes (Titulos._carregar_alarmes_yaml w).1 = gravacoes w).
Proof.
  split; intros w.
  - split; [apply pos_existentes_def|].
    destruct (pos_yaml_frame w) as (? & _ & ?). done.
  - split; [apply tit_existentes_def|].
    destruct (tit_yaml_frame w) as (? & _ & ?). done.
Qed.

(** X13: existing records that are ascending by alarm_id keep their
    relative order in what the positional script writes. *)
Theorem pos_ordem_ascendente_mantida {rt : PyRuntime}
    (w : mundo Posicional.frame) :
  Posicional.novos w ≠ [] →
  StronglySorted (λ a b, alarm_id a ≤ alarm_id b) (Posicional.existentes w) →
  ∃ out,
    persistido (Posicional.executar_atualizacao w) = Some out ∧
    Posicional.existentes w `sublist_of` out.
Proof.
  intros HN Hs. exists (Posicional.lista_gravada w).
  rewrite pos_persistido_executar, decide_False by done.
  split; [done|]. by apply pos_existentes_ascendentes.
Qed.

(** X13, witness: existing [1; 5]. *)
Lemma pos_ordem_ascendente_mantida_witness :
  ∃ out,
    persistido (Posicional.executar_atualizacao (rt:=runtime_decimal)
                  mundo_cenario) = Some out ∧
    Posicional.existentes mundo_cenario `sublist_of` out.
Proof.
  apply (pos_ordem_ascendente_mantida (rt:=runtime_decimal) mundo_cenario).
  - compute_done.
  - repeat constructor; compute_done.
Defined.

(** X14: a candidate is never moved down, and never up by as much as the
    number of existing records plus candidates. *)
Theorem processar_janela_total (existentes novos : list alarm) :
  Forall2 (λ c p, alarm_id c ≤ alarm_id p
                  < alarm_id c + Z.of_nat (length existentes)
                    + Z.of_nat (length novos))
          novos (processar (ids_de existentes) novos).1.
Proof.
  eapply Forall2_impl; [apply processar_janela|]. intros c p [? ?].
  pose proof (size_ids_de existentes). split; [done|]. lia.
Qed.

(** X15: the title script finds its cells by title, not by position: with
    other columns before and after the configured ones (none of them under
    a configured title before), the candidates are the same. *)
Theorem tit_colunas_por_titulo {rt : PyRuntime}
    (w w' : mundo Titulos.frame) df pre pos rows' :
  arq_excel w = Retorna df →
  arq_excel w'
    = Retorna (Titulos.Frame (pre ++ Titulos.columns df ++ pos) rows') →
  Titulos.colunas_faltantes (Titulos.columns df) = [] →
  Forall (λ col, col ∉ pre) (Titulos.values Titulos.mapa_de_colunas) →
  Forall (λ row, length row = length (Titulos.columns df)) (Titulos.rows df) →
  Forall2 (entre (length pre)) (Titulos.rows df) rows' →
  Titulos.novos w' = Titulos.novos w.
Proof.
  intros Hdf Hdf' Hcols Hpre Hlen Hrows.
  unfold Titulos.novos, Titulos._carregar_alarmes_excel, Titulos.ingerir.
  rewrite Hdf, Hdf'. simpl.
  assert (Titulos.colunas_faltantes (pre ++ Titulos.columns df ++ pos) = [])
    as Hcols'.
  { apply colunas_faltantes_nil. apply colunas_faltantes_nil in Hcols.
    eapply Forall_impl; [exact Hcols|]. intros col Hcol. simpl in Hcol.
    apply elem_of_app. right. apply elem_of_app. by left. }
  rewrite !decide_True by done. unfold Titulos.iterrows.
  rewrite (para_cada_ext
             (Titulos.alarm_data (pre ++ Titulos.columns df ++ pos))
             (Titulos.alarm_data (Titulos.columns df))
             (Titulos.fillna <$> rows') (Titulos.fillna <$> Titulos.rows df)).
  { by destruct (para_cada _ _) as [?|[]]. }
  apply Forall2_fmap.
  apply Forall2_same_length_lookup_2.
  { symmetry. by eapply Forall2_length. }
  intros i row' row Hrow' Hrow.
  apply alarm_data_entre; [done|done| |].
  - rewrite Forall_forall in Hlen. eapply Hlen, list_elem_of_lookup_2. done.
  - eapply (Forall2_lookup_lr _ _ _ _ _ _ Hrows); done.
Qed.

(** X15, witness: [quadro_titulos] with a column ["Obs"] in front and a
    column ["Extra"] at the end. *)
Lemma tit_colunas_por_titulo_witness :
  Titulos.novos (rt:=runtime_decimal) mundo_titulos_largo
  = Titulos.novos (rt:=runtime_decimal) mundo_titulos.
Proof.
  apply (tit_colunas_por_titulo (rt:=runtime_decimal) mundo_titulos
           mundo_titulos_largo quadro_titulos ["Obs"%string] ["Extra"%string]
           (Titulos.rows quadro_titulos_largo)).
  - reflexivity.
  - reflexivity.
  - compute_done.
  - compute_done.
  - compute_done.
  - simpl. constructor; [by exists [Some (lit "x")], [None]|].
    constructor; [by exists [Some (lit "x")], [None]|]. constructor.
Defined.
